(** * Expense-tracker bot: a shallow embedding of [expense_bot.py]

    The development follows the Python module function by function and keeps
    its names.

    - Python [str] values are sequences of Unicode code points: [str] below is
      a list of code points ([N]).  Character classes and case mapping are the
      ones of Python on the ASCII range ([\d] is [0-9], [\w] is
      [[A-Za-z0-9_]], [lower]/[upper] map the 26 letters); [strip] uses the
      full white-space table of [str.isspace].  Code points above 127 are
      carried through unchanged by the case mappings and count neither as
      digits nor as word characters.
    - Amounts are Python floats produced by [float(token)]; they are modelled
      by the exact decimal value of the token as a rational number ([Q]),
      compared numerically as [==] does.  Binary rounding is not modelled.
    - The ledger (the Google sheet) is the row store of the bot: a header row,
      which is always there, followed by data rows with the fixed columns
      [timestamp, date, category, amount, message].  The functions that talk
      to the sheet return the calls that change it, in order; a handler then
      commits them.  Whether the sheet can be reached when a handler runs is
      part of its environment ([Env]), together with the clock and the
      identifier the transport gives to the reply.
    - A handler returns the new state and what it did that is seen outside:
      its replies and its sheet calls.  The lines written to [debug.txt] and
      the monthly balance shown in the confirmation are not modelled. *)

From Stdlib Require Import ZArith NArith QArith List Bool Lia DecimalString.
From stdpp Require Import base option list gmap sets strings.

Close Scope Q_scope.
Open Scope N_scope.
Open Scope list_scope.

(** ** Text *)

Abbreviation str := (list N).

(** A literal of the source, as code points. *)
Definition u (s : string) : str :=
  List.map Ascii.N_of_ascii (String.list_ascii_of_string s).

Definition is_digit (c : N) : bool := (48 <=? c) && (c <=? 57).

Definition is_upper (c : N) : bool := (65 <=? c) && (c <=? 90).
Definition is_lower (c : N) : bool := (97 <=? c) && (c <=? 122).

(** [\w]: letters, digits and the underscore. *)
Definition is_word (c : N) : bool :=
  is_digit c || is_upper c || is_lower c || (c =? 95).

(** [str.isspace]: the characters [str.strip()] removes. *)
Definition is_space (c : N) : bool :=
  ((9 <=? c) && (c <=? 13)) || ((28 <=? c) && (c <=? 32))
  || (c =? 133) || (c =? 160) || (c =? 5760)
  || ((8192 <=? c) && (c <=? 8202))
  || (c =? 8232) || (c =? 8233) || (c =? 8239) || (c =? 8287) || (c =? 12288).

Definition lower_char (c : N) : N := if is_upper c then c + 32 else c.
Definition upper_char (c : N) : N := if is_lower c then c - 32 else c.

(** [text.lower()] and [text.upper()]. *)
Definition lower (s : str) : str := List.map lower_char s.
Definition upper (s : str) : str := List.map upper_char s.

Fixpoint lstrip (s : str) : str :=
  match s with
  | c :: r => if is_space c then lstrip r else s
  | [] => []
  end.

Definition rstrip (s : str) : str := rev (lstrip (rev s)).

(** [text.strip()]. *)
Definition strip (s : str) : str := rstrip (lstrip s).

Fixpoint str_eqb (a b : str) : bool :=
  match a, b with
  | [], [] => true
  | x :: a', y :: b' => (x =? y) && str_eqb a' b'
  | _, _ => false
  end.

Fixpoint starts_with (p s : str) : bool :=
  match p, s with
  | [], _ => true
  | x :: p', y :: s' => (x =? y) && starts_with p' s'
  | _ :: _, [] => false
  end.

(** [k in s] on strings: [k] occurs as a contiguous substring of [s]. *)
Fixpoint contains (k s : str) : bool :=
  starts_with k s ||
  match s with
  | [] => false
  | _ :: s' => contains k s'
  end.

(** The longest prefix whose characters satisfy [p], and the rest. *)
Fixpoint span (p : N -> bool) (s : str) : str * str :=
  match s with
  | c :: r => if p c then let '(a, b) := span p r in (c :: a, b) else ([], s)
  | [] => ([], [])
  end.

(** One match of the pattern [\d+\.?\d*] at the head of [s] (which starts
    with a digit): every quantifier is greedy and what follows it can match
    the empty string, so the match is the longest digit run, a dot when one
    follows, and the longest digit run after it. *)
Definition match_number (s : str) : str * str :=
  let '(ip, r1) := span is_digit s in
  match r1 with
  | 46 :: r2 => let '(fp, r3) := span is_digit r2 in (ip ++ 46 :: fp, r3)
  | _ => (ip, r1)
  end.

(** [re.findall(r'\d+\.?\d*', s)]: scan from the left; a match is emitted and
    the scan goes on after it, otherwise it moves one character on. *)
Fixpoint findall_number_from (fuel : nat) (s : str) : list str :=
  match fuel, s with
  | S f, c :: r =>
      if is_digit c
      then let '(tok, rest) := match_number s in tok :: findall_number_from f rest
      else findall_number_from f r
  | _, _ => []
  end.

Definition findall_number (s : str) : list str :=
  findall_number_from (length s) s.

(** [re.sub(r'\d+\.?\d*', '', s)]. *)
Fixpoint remove_numbers_from (fuel : nat) (s : str) : str :=
  match fuel, s with
  | S f, c :: r =>
      if is_digit c
      then remove_numbers_from f (snd (match_number s))
      else c :: remove_numbers_from f r
  | _, _ => []
  end.

Definition remove_numbers (s : str) : str := remove_numbers_from (length s) s.

Definition digit_val (c : N) : Z := Z.of_N (c - 48).

(** The number a run of decimal digits denotes. *)
Definition digits_val (ds : str) : Z :=
  fold_left (fun acc c => (10 * acc + digit_val c)%Z) ds 0%Z.

(** [float(tok)] for a token [ddd], [ddd.] or [ddd.ddd]. *)
Definition float_of_token (tok : str) : Q :=
  let '(ip, r) := span is_digit tok in
  let fp := match r with 46 :: f => f | _ => [] end in
  Qred (Qplus (inject_Z (digits_val ip))
              (Qmake (digits_val fp) (Z.to_pos (10 ^ Z.of_nat (length fp))))).


(** [str(n)] for an integer. *)
Definition str_of_Z (n : Z) : str :=
  u (DecimalString.NilZero.string_of_int (Z.to_int n)).

(** [\b] between two neighbouring characters; beyond either end of the string
    there is no word character. *)
Definition word_boundary (before after : option N) : bool :=
  xorb (from_option is_word false before) (from_option is_word false after).

(** One match of [\b] + [p] + [\b] at the head of [s], where [prev] is the
    character before [s]; [p] is a literal and is not empty. *)
Definition match_word (p : str) (prev : option N) (s : str) : option str :=
  if word_boundary prev (head s) && starts_with p s
  then
    let rest := skipn (length p) s in
    if word_boundary (last p) (head rest) then Some rest else None
  else None.

(** [re.sub(r'\b' + p + r'\b', r, s)] for a literal [p]: every match, from the
    left, is replaced by [r]. *)
Fixpoint sub_word_from (fuel : nat) (p r : str) (prev : option N) (s : str) : str :=
  match fuel, s with
  | S f, c :: s' =>
      match match_word p prev s with
      | Some rest => r ++ sub_word_from f p r (last p) rest
      | None => c :: sub_word_from f p r (Some c) s'
      end
  | _, _ => []
  end.

Definition sub_word (p r s : str) : str := sub_word_from (length s) p r None s.

(** [int(s)] on a string: surrounding white space, an optional sign, then
    decimal digits in which single underscores may separate digits.  [None]
    stands for [ValueError]. *)
Fixpoint int_digits (prev_digit : bool) (s : str) : option str :=
  match s with
  | [] => if prev_digit then Some [] else None
  | c :: r =>
      if is_digit c then option_map (cons c) (int_digits true r)
      else if (c =? 95) && prev_digit then int_digits false r
      else None
  end.

Definition int_of_str (s : str) : option Z :=
  let body (b : str) := option_map digits_val (int_digits false b) in
  match strip s with
  | 45 :: b => option_map Z.opp (body b)
  | 43 :: b => body b
  | b => body b
  end.

(** ** Extractor and classifier *)

(** The character class of [extract_amount], as the source file spells it,
    then [$] and the comma. *)
Definition AMOUNT_SYMBOLS : str :=
  [8218; 199; 960; 36; 8218; 199; 168; 172; 163; 44].

Definition is_amount_symbol (c : N) : bool := existsb (N.eqb c) AMOUNT_SYMBOLS.

(** [re.sub(r'[...]', '', text)]. *)
Definition strip_symbols (text : str) : str :=
  List.filter (fun c => negb (is_amount_symbol c)) text.

Definition extract_amount (text : str) : option Q :=
  let text_cleaned := strip_symbols text in
  let numbers := findall_number text_cleaned in
  match numbers with
  | tok :: _ => Some (float_of_token tok)
  | [] => None
  end.

(** The keyword table, in the order the dictionary literal lists it. *)
Definition CATEGORY_KEYWORDS : list (str * list str) :=
  [ (u "Food", List.map u ["lunch"; "dinner"; "breakfast"; "food"; "restaurant";
       "cafe"; "coffee"; "snack"; "meal"; "eat"; "omelette"; "omlette"; "juice";
       "tea"]%string);
    (u "Transport", List.map u ["uber"; "taxi"; "bus"; "metro"; "fuel"; "petrol";
       "parking"; "ola"; "auto"; "train"; "flight"]%string);
    (u "Groceries", List.map u ["grocery"; "groceries"; "vegetables"; "fruits";
       "supermarket"; "veggies"; "market"]%string);
    (u "Shopping", List.map u ["shopping"; "clothes"; "shoes"; "amazon";
       "flipkart"; "shop"; "purchase"]%string);
    (u "Entertainment", List.map u ["movie"; "netflix"; "subscription"; "game";
       "entertainment"; "spotify"; "prime"]%string);
    (u "Bills", List.map u ["electricity"; "water"; "internet"; "phone"; "bill";
       "rent"; "emi"; "recharge"]%string);
    (u "Health", List.map u ["medicine"; "doctor"; "hospital"; "pharmacy";
       "health"; "gym"; "medical"; "haircut"]%string) ].

Definition OTHER : str := u "Other".

(** The two nested loops of [detect_category] over a table. *)
Fixpoint detect_in (table : list (str * list str)) (text_lower : str) : str :=
  match table with
  | (category, keywords) :: rest =>
      if existsb (fun keyword => contains keyword text_lower) keywords
      then category
      else detect_in rest text_lower
  | [] => OTHER
  end.

Definition detect_category (text : str) : str :=
  let text_lower := lower text in
  detect_in CATEGORY_KEYWORDS text_lower.

(** ** The ledger *)

(** A data row of the sheet: [Timestamp, Date, Category, Amount, Message]. *)
Record Row := {
  row_timestamp : str;
  row_date : str;
  row_category : str;
  row_amount : Q;
  row_message : str
}.

Inductive cell := CText (s : str) | CNumber (q : Q).

(** The calls the bot makes that change the sheet.  Sheet rows are numbered
    from 1 and row 1 is the header, so data row [i] (from 0) is sheet row
    [i + 2].  [delete_row n] is [sheet.delete_rows(n)], which deletes one row;
    [delete_rows a b] is [sheet.delete_rows(a, b)], which deletes the rows
    [a] to [b]. *)
Inductive sheet_call :=
| append_row (r : Row)
| delete_row (index : nat)
| delete_rows (start_index end_index : nat)
| update_cell (row col : nat) (value : cell).

Definition set_cell (col : nat) (value : cell) (r : Row) : Row :=
  match col, value with
  | 3%nat, CText s =>
      {| row_timestamp := row_timestamp r; row_date := row_date r;
         row_category := s; row_amount := row_amount r;
         row_message := row_message r |}
  | 4%nat, CNumber q =>
      {| row_timestamp := row_timestamp r; row_date := row_date r;
         row_category := row_category r; row_amount := q;
         row_message := row_message r |}
  | 5%nat, CText s =>
      {| row_timestamp := row_timestamp r; row_date := row_date r;
         row_category := row_category r; row_amount := row_amount r;
         row_message := s |}
  | _, _ => r
  end.

(** What a call does to the data rows. *)
Definition apply_call (c : sheet_call) (rows : list Row) : list Row :=
  match c with
  | append_row r => rows ++ [r]
  | delete_row index => take (index - 2) rows ++ drop (index - 1) rows
  | delete_rows first last => take (first - 2) rows ++ drop (last - 1) rows
  | update_cell row col value => alter (set_cell col value) (row - 2)%nat rows
  end.

Definition apply_calls (cs : list sheet_call) (rows : list Row) : list Row :=
  fold_left (fun acc c => apply_call c acc) cs rows.

(** What a handler meets outside the bot when it runs: whether the sheet can
    be reached, the clock, and the identifier the transport gives to the
    confirmation the bot sends. *)
Record Env := {
  online : bool;
  now : str;
  sent_message_id : Z
}.

Inductive outcome (A : Type) := Ok (a : A) | Failed (error : str).
Arguments Ok {A} a.
Arguments Failed {A} error.

Definition CONNECT_FAILED : str := u "Failed to connect to Google Sheets".
Definition NOT_FOUND : str := u "Transaction not found".
Definition NO_CHANGES : str := u "No changes detected".

(** [add_expense_to_sheet]: the date is the first ten characters of the
    timestamp ([%Y-%m-%d] of [%Y-%m-%d %H:%M:%S]). *)
Definition add_expense_to_sheet (env : Env) (amount : Q) (category message : str)
  : bool * list sheet_call :=
  if negb (online env) then (false, [])
  else
    let row := {| row_timestamp := now env; row_date := take 10 (now env);
                  row_category := category; row_amount := amount;
                  row_message := message |} in
    (true, [append_row row]).

(** [get_recent_transactions]: the last [limit] records with their sheet row. *)
Definition get_recent_transactions (env : Env) (rows : list Row) (limit : nat)
  : list (nat * Row) :=
  if negb (online env) then []
  else
    let total_rows := length rows in
    let start_index := (total_rows - limit)%nat in
    imap (fun k record => ((start_index + k) + 2, record)%nat) (drop start_index rows).

Definition delete_transaction_by_row (env : Env) (rows : list Row) (row_number : nat)
  : outcome (option Row) * list sheet_call :=
  if negb (online env) then (Failed CONNECT_FAILED, [])
  else if (row_number <? 2)%nat then (Failed (u "Invalid row number"), [])
  else (Ok (rows !! (row_number - 2)%nat), [delete_row row_number]).

(** The test of the matcher on one record. *)
Definition row_matches (amount : Q) (category message : str) (record : Row) : bool :=
  Qeq_bool (row_amount record) amount
  && str_eqb (row_category record) category
  && str_eqb (row_message record) message.

(** [for i in range(n - 1, -1, -1)]: the indices [n-1], ..., [0] in turn, up to
    the first whose record passes the test. *)
Fixpoint scan_down (test : Row -> bool) (records : list Row) (n : nat) : option nat :=
  match n with
  | O => None
  | S i =>
      match records !! i with
      | Some record => if test record then Some i else scan_down test records i
      | None => scan_down test records i
      end
  end.

Definition find_and_delete_transaction (env : Env) (rows : list Row)
    (amount : Q) (category message : str) : outcome Row * list sheet_call :=
  if negb (online env) then (Failed CONNECT_FAILED, [])
  else
    let records := rows in
    match scan_down (row_matches amount category message) records (length records) with
    | Some i =>
        let row_number := (i + 2)%nat in
        (match records !! i with Some record => Ok record | None => Failed NOT_FOUND end,
         [delete_row row_number])
    | None => (Failed NOT_FOUND, [])
    end.

Definition delete_all_transactions (env : Env) (rows : list Row)
  : (bool * Z) * list sheet_call :=
  if negb (online env) then ((false, 0%Z), [])
  else
    let all_values := S (length rows) in
    let transaction_count := (Z.of_nat all_values - 1)%Z in
    if (transaction_count <=? 0)%Z then ((true, 0%Z), [])
    else ((true, transaction_count), [delete_rows 2 all_values]).

(** The dictionary [update_transaction] returns on success. *)
Record UpdateResult := {
  old_amount : Q;
  new_amount : Q;
  old_category : str;
  new_category : str;
  res_message : str;
  amount_changed : bool;
  category_changed : bool
}.

(** [int(x)] on a float truncates towards zero. *)
Definition int_of_float (x : Q) : Z := Z.quot (Qnum x) (Zpos (Qden x)).

Definition update_transaction (env : Env) (rows : list Row)
    (amount : Q) (category message : str)
    (new_amount : option Q) (new_category : option str)
  : outcome UpdateResult * list sheet_call :=
  if negb (online env) then (Failed CONNECT_FAILED, [])
  else
    match scan_down (row_matches amount category message) rows (length rows) with
    | Some i =>
        match rows !! i with
        | Some row =>
            let row_number := (i + 2)%nat in
            let old_amount := row_amount row in
            let old_category := row_category row in
            let old_message := row_message row in
            let amount_changed :=
              match new_amount with
              | Some a => negb (Qeq_bool a old_amount)
              | None => false
              end in
            let category_changed :=
              match new_category with
              | Some c => negb (str_eqb c old_category)
              | None => false
              end in
            if negb amount_changed && negb category_changed
            then (Failed NO_CHANGES, [])
            else
              let amount_calls :=
                match new_amount with
                | Some a =>
                    if amount_changed then
                      let new_message :=
                        sub_word (str_of_Z (int_of_float old_amount))
                                 (str_of_Z (int_of_float a)) old_message in
                      update_cell row_number 4 (CNumber a)
                      :: (if negb (str_eqb new_message old_message)
                          then [update_cell row_number 5 (CText new_message)]
                          else [])
                    else []
                | None => []
                end in
              let category_calls :=
                match new_category with
                | Some c => if category_changed
                            then [update_cell row_number 3 (CText c)] else []
                | None => []
                end in
              (Ok {| old_amount := old_amount;
                     new_amount := (if amount_changed
                                    then default old_amount new_amount
                                    else old_amount);
                     old_category := old_category;
                     new_category := (if category_changed
                                      then default old_category new_category
                                      else old_category);
                     res_message := message;
                     amount_changed := amount_changed;
                     category_changed := category_changed |},
               amount_calls ++ category_calls)
        | None => (Failed NOT_FOUND, [])
        end
    | None => (Failed NOT_FOUND, [])
    end.

(** ** The bot *)

(** An entry of [bot_data['transactions']]. *)
Record TxnData := {
  txn_amount : Q;
  txn_category : str;
  txn_message : str
}.

(** The state the handlers share: [bot_data['processed_messages']],
    [bot_data['transactions']], the two keys of the [user_data] of the user
    whose conversation is followed, and the data rows of the sheet.  A key that
    is absent reads like the empty set, the empty dictionary and [False]. *)
Record State := {
  processed_messages : gset Z;
  transactions : gmap Z TxnData;
  pending_deleteall : bool;
  deleteall_count : Z;
  sheet : list Row
}.

Definition initial_state (rows : list Row) : State :=
  {| processed_messages := ∅; transactions := ∅; pending_deleteall := false;
     deleteall_count := 0%Z; sheet := rows |}.

Definition set_processed (seen : gset Z) (st : State) : State :=
  {| processed_messages := seen; transactions := transactions st;
     pending_deleteall := pending_deleteall st;
     deleteall_count := deleteall_count st; sheet := sheet st |}.

Definition set_transactions (idx : gmap Z TxnData) (st : State) : State :=
  {| processed_messages := processed_messages st; transactions := idx;
     pending_deleteall := pending_deleteall st;
     deleteall_count := deleteall_count st; sheet := sheet st |}.

Definition set_pending (b : bool) (st : State) : State :=
  {| processed_messages := processed_messages st; transactions := transactions st;
     pending_deleteall := b;
     deleteall_count := deleteall_count st; sheet := sheet st |}.

Definition set_count (n : Z) (st : State) : State :=
  {| processed_messages := processed_messages st; transactions := transactions st;
     pending_deleteall := pending_deleteall st;
     deleteall_count := n; sheet := sheet st |}.

(** The sheet after the calls a handler made. *)
Definition commit (calls : list sheet_call) (st : State) : State :=
  {| processed_messages := processed_messages st; transactions := transactions st;
     pending_deleteall := pending_deleteall st;
     deleteall_count := deleteall_count st;
     sheet := apply_calls calls (sheet st) |}.

(** An inbound text message: its identifier, its text and the identifier of
    the message it replies to, if any. *)
Record Update := {
  message_id : Z;
  text : str;
  reply_to_message : option Z
}.

(** The first characters of the error replies, as the source file has them. *)
Definition CROSS : str := [8218; 249; 229].

(** The replies of [delete_command] to an argument it refuses. *)
Definition invalid_number_text (txn_number : Z) (n : nat) : str :=
  CROSS ++ u " Invalid transaction number: " ++ str_of_Z txn_number ++ [10; 10]
  ++ u "Please choose a number between 1 and " ++ str_of_Z (Z.of_nat n) ++ u "."
  ++ [10] ++ u "Use `/recent` to see your transactions.".

Definition invalid_format_text : str :=
  CROSS ++ u " Invalid number format." ++ [10; 10]
  ++ u "Usage: `/delete <number>`" ++ [10] ++ u "Example: `/delete 3`".

(** The replies the bot sends.  The two above are given by their text; the
    others by a constructor that names the message and carries the values
    the message is built from. *)
Inductive reply :=
| RText (body : str)
| RWelcome
| RHelp
| RBalance
| RNoTransactions
| RRecent (listed : list (nat * Row))
| RDeleteUsage
| RTransactionDeleted (category : str) (amount : Q) (message : str)
| RDeleteFailed (error : str)
| RConnectFailed
| RNothingToDelete
| RConfirmPrompt (transaction_count : Z)
| RAllDeleted (count : Z)
| RDeleteAllFailed
| RDeleteAllCancelled
| RNoTransactionData
| RTransactionUpdated (result : UpdateResult)
| RUpdateFailed (error : str)
| RNoAmount
| RExpenseRecorded (category : str) (amount : Q) (note : str)
| RSaveFailed.

(** What a handler does that is seen outside: replies and sheet calls, in
    the order they happen. *)
Inductive Event :=
| Reply (r : reply)
| Sheet (c : sheet_call).

(** [list(s)] on a set lists its elements once each, in an order the
    language leaves to the implementation. *)
Class SetOrder := {
  set_list : gset Z -> list Z;
  set_list_perm : forall s, set_list s ≡ₚ elements s
}.

#[export] Instance elements_order : SetOrder :=
  {| set_list := elements; set_list_perm := fun s => reflexivity (elements s) |}.

Section Handlers.
Context `{SetOrder}.

(** Marking a message as processed, and the clean-up that follows:
    [msg_list[-100:]] keeps the last hundred of the listing. *)
Definition mark_processed (id : Z) (seen : gset Z) : gset Z :=
  let seen := {[id]} ∪ seen in
  if (100 <? size seen)%nat then
    let msg_list := set_list seen in
    list_to_set (drop (length msg_list - 100) msg_list)
  else seen.

(** The end of [handle_message]: the text is logged as a new expense. *)
Definition log_expense (env : Env) (upd : Update) (st : State) : State * list Event :=
  match extract_amount (text upd) with
  | None => (st, [Reply RNoAmount])
  | Some amount =>
      let category := detect_category (text upd) in
      let '(success, calls) := add_expense_to_sheet env amount category (text upd) in
      if success then
        let transaction_data :=
          {| txn_amount := amount; txn_category := category;
             txn_message := text upd |} in
        let idx := <[sent_message_id env := transaction_data]> (transactions st) in
        let idx := <[message_id upd := transaction_data]> idx in
        (set_transactions idx (commit calls st),
         List.map Sheet calls ++ [Reply (RExpenseRecorded category amount (text upd))])
      else (st, [Reply RSaveFailed])
  end.

(** The truth value of [new_amount]: [None] and [0.0] are false. *)
Definition truthy (x : option Q) : bool :=
  match x with
  | Some a => negb (Qeq_bool a 0)
  | None => false
  end.

(** The two flags of the edit check on a reply to a tracked message. *)
Definition update_amount_flag (reply_text : str) : bool :=
  let new_amount := extract_amount reply_text in
  let text_without_number := strip (remove_numbers reply_text) in
  truthy new_amount && (length text_without_number <? 15)%nat.

Definition update_category_flag (reply_text : str) (txn_data : TxnData) : bool :=
  let new_category := detect_category reply_text in
  negb (str_eqb new_category OTHER)
  && negb (str_eqb new_category (txn_category txn_data)).

(** The arguments [new_amount] and [new_category] of the update. *)
Definition edit_amount (reply_text : str) : option Q :=
  if update_amount_flag reply_text then extract_amount reply_text else None.

Definition edit_category (reply_text : str) (txn_data : TxnData) : option str :=
  if update_category_flag reply_text txn_data
  then Some (detect_category reply_text) else None.

Definition handle_message (env : Env) (upd : Update) (st : State)
  : State * list Event :=
  if decide (message_id upd ∈ processed_messages st) then (st, [])
  else
    let st := set_processed (mark_processed (message_id upd) (processed_messages st)) st in
    if pending_deleteall st then
      if str_eqb (upper (strip (text upd))) (u "CONFIRM DELETE ALL") then
        let '((success, count), calls) := delete_all_transactions env (sheet st) in
        (set_pending false (commit calls st),
         List.map Sheet calls
         ++ [Reply (if success then RAllDeleted count else RDeleteAllFailed)])
      else (set_pending false st, [Reply RDeleteAllCancelled])
    else
      match reply_to_message upd with
      | Some replied_message_id =>
          if contains (u "delete") (lower (text upd)) then
            match transactions st !! replied_message_id with
            | Some txn_data =>
                let '(result, calls) :=
                  find_and_delete_transaction env (sheet st) (txn_amount txn_data)
                    (txn_category txn_data) (txn_message txn_data) in
                match result with
                | Ok _ =>
                    (set_transactions (delete replied_message_id (transactions st))
                       (commit calls st),
                     List.map Sheet calls
                     ++ [Reply (RTransactionDeleted (txn_category txn_data)
                                  (txn_amount txn_data) (txn_message txn_data))])
                | Failed error =>
                    (commit calls st, List.map Sheet calls ++ [Reply (RDeleteFailed error)])
                end
            | None => (st, [Reply RNoTransactionData])
            end
          else
            match transactions st !! replied_message_id with
            | Some txn_data =>
                let update_amount := update_amount_flag (text upd) in
                let update_category := update_category_flag (text upd) txn_data in
                if update_amount || update_category then
                  let '(result, calls) :=
                    update_transaction env (sheet st) (txn_amount txn_data)
                      (txn_category txn_data) (txn_message txn_data)
                      (edit_amount (text upd)) (edit_category (text upd) txn_data) in
                  (commit calls st,
                   List.map Sheet calls
                   ++ [Reply (match result with
                              | Ok r => RTransactionUpdated r
                              | Failed error => RUpdateFailed error
                              end)])
                else log_expense env upd st
            | None => log_expense env upd st
            end
      | None => log_expense env upd st
      end.

Definition deleteall_command (env : Env) (st : State) : State * list Event :=
  if negb (online env) then (st, [Reply RConnectFailed])
  else
    let all_values := S (length (sheet st)) in
    let transaction_count := (Z.of_nat all_values - 1)%Z in
    if (transaction_count <=? 0)%Z then (st, [Reply RNothingToDelete])
    else (set_count transaction_count (set_pending true st),
          [Reply (RConfirmPrompt transaction_count)]).

Definition delete_command (env : Env) (args : list str) (st : State)
  : State * list Event :=
  match args with
  | [] => (st, [Reply RDeleteUsage])
  | arg :: _ =>
      match int_of_str arg with
      | None => (st, [Reply (RText invalid_format_text)])
      | Some txn_number =>
          let transactions := get_recent_transactions env (sheet st) 10 in
          if (txn_number <? 1)%Z || (Z.of_nat (length transactions) <? txn_number)%Z
          then (st, [Reply (RText (invalid_number_text txn_number (length transactions)))])
          else
            match transactions !! Z.to_nat (txn_number - 1) with
            | Some (row_number, txn) =>
                let '(result, calls) :=
                  delete_transaction_by_row env (sheet st) row_number in
                (commit calls st,
                 List.map Sheet calls
                 ++ [Reply (match result with
                            | Ok _ => RTransactionDeleted (row_category txn)
                                        (row_amount txn) (row_message txn)
                            | Failed error => RDeleteFailed error
                            end)])
            | None => (st, [])
            end
      end
  end.

Definition recent_command (env : Env) (st : State) : State * list Event :=
  match get_recent_transactions env (sheet st) 10 with
  | [] => (st, [Reply RNoTransactions])
  | listed => (st, [Reply (RRecent listed)])
  end.

(** What reaches the bot: one of the six commands, or a text that is not a
    command. *)
Inductive Input :=
| CmdStart
| CmdHelp
| CmdBalance
| CmdRecent
| CmdDelete (args : list str)
| CmdDeleteAll
| Message (upd : Update).

(** The handler [main] registers for each input. *)
Definition dispatch (env : Env) (input : Input) (st : State) : State * list Event :=
  match input with
  | CmdStart => (st, [Reply RWelcome])
  | CmdHelp => (st, [Reply RHelp])
  | CmdBalance => (st, [Reply RBalance])
  | CmdRecent => recent_command env st
  | CmdDelete args => delete_command env args st
  | CmdDeleteAll => deleteall_command env st
  | Message upd => handle_message env upd st
  end.

(** The inputs of a conversation handled in the order they arrive. *)
Fixpoint run (inputs : list (Env * Input)) (st : State) : State * list Event :=
  match inputs with
  | [] => (st, [])
  | (env, input) :: rest =>
      let '(st1, out1) := dispatch env input st in
      let '(st2, out2) := run rest st1 in
      (st2, out1 ++ out2)
  end.

End Handlers.



Definition is_append (e : Event) : bool :=
  match e with
  | Sheet (append_row _) => true
  | _ => false
  end.

(** What the edit of a tracked record leaves in the output: a cell written,
    or one of the two replies that end the edit. *)
Definition is_edit (e : Event) : bool :=
  match e with
  | Sheet (update_cell _ _ _) => true
  | Reply (RTransactionUpdated _) => true
  | Reply (RUpdateFailed _) => true
  | _ => false
  end.

Definition count_events (p : Event -> bool) (out : list Event) : nat :=
  length (List.filter p out).

(** ** What the properties are stated with *)

(** [k] occurs in [s] as a contiguous substring. *)
Definition substring (k s : str) : Prop := exists pre post, s = pre ++ k ++ post.


(** [k] occurs in [text] when case is ignored: a stretch of [text] and [k] are
    equal once both are lower-cased. *)
Definition occurs_ignoring_case (k text : str) : Prop :=
  exists pre seg post, text = pre ++ seg ++ post /\ lower seg = lower k.


(** [p] occurs in [s] as a whole word: it occurs with a word boundary on
    either side. *)
Definition whole_word (p s : str) : Prop :=
  exists pre post,
    s = pre ++ p ++ post
    /\ word_boundary (last pre) (head (p ++ post)) = true
    /\ word_boundary (last p) (head post) = true.

(** The record holds the triple of the query. *)
Definition same_triple (amount : Q) (category message : str) (record : Row) : Prop :=
  Qeq (row_amount record) amount
  /\ row_category record = category /\ row_message record = message.


(** Sample data. *)
Definition sample_env : Env :=
  {| online := true; now := u "2024-05-01 09:30:00"; sent_message_id := 11 |}.

Definition lunch_row (timestamp : string) : Row :=
  {| row_timestamp := u timestamp; row_date := take 10 (u timestamp);
     row_category := u "Food"; row_amount := 100 # 1;
     row_message := u "lunch 100" |}.

Definition taxi_row : Row :=
  {| row_timestamp := u "2024-04-29 18:05:00"; row_date := u "2024-04-29";
     row_category := u "Transport"; row_amount := 180 # 1;
     row_message := u "taxi 180" |}.

(** A hundred identifiers already seen. *)
Definition hundred_seen : gset Z := list_to_set (seqZ 1 100).

(** The expense text of the user with identifier [i]; the confirmation gets
    the identifier [1000 + i]. *)
Definition lunch_update (i : Z) : Env * Input :=
  ({| online := true; now := u "2024-05-01 09:30:00"; sent_message_id := 1000 + i |},
   Message {| message_id := i; text := u "Lunch 250"; reply_to_message := None |}).

Definition lunch_updates : list (Env * Input) := List.map lunch_update (seqZ 1 101).

(** A state in which the message 10 is tracked as the record
    (250, Food, "Lunch 250"), which is the one row of the sheet. *)
Definition lunch_250 : Row :=
  {| row_timestamp := u "2024-05-01 09:30:00"; row_date := u "2024-05-01";
     row_category := u "Food"; row_amount := 250 # 1;
     row_message := u "Lunch 250" |}.

Definition tracked_state : State :=
  {| processed_messages := ∅;
     transactions :=
       {[ 10%Z := {| txn_amount := 250 # 1; txn_category := u "Food";
                     txn_message := u "Lunch 250" |} ]};
     pending_deleteall := false; deleteall_count := 0%Z;
     sheet := [lunch_250] |}.


Definition lunch_decimal : Row :=
  {| row_timestamp := u "2024-05-01 09:30:00"; row_date := u "2024-05-01";
     row_category := u "Food"; row_amount := 501 # 2;
     row_message := u "Lunch 250.5" |}.

Definition rent_row : Row :=
  {| row_timestamp := u "2024-05-01 08:00:00"; row_date := u "2024-05-01";
     row_category := u "Bills"; row_amount := 1500 # 1;
     row_message := u "rent 1,500" |}.

(** A reply to the tracked message. *)
Definition reply_update (reply_text : string) : Update :=
  {| message_id := 20; text := u reply_text; reply_to_message := Some 10%Z |}.


(** ** The monthly report *)

(** [now.strftime('%Y-%m')]: the first seven characters of the timestamp. *)
Definition current_month (env : Env) : str := take 7 (now env).

(** [get_monthly_expenses]: the amounts of the records whose date starts with
    the current month, added up from the first record on; 0 when the sheet
    cannot be reached. *)
Definition get_monthly_expenses (env : Env) (rows : list Row) : Q :=
  if negb (online env) then 0%Q
  else
    fold_left
      (fun total record =>
         if starts_with (current_month env) (row_date record)
         then Qplus total (row_amount record) else total)
      rows 0%Q.

(** The last line of the report of [balance_command]. *)
Inductive balance_note :=
| BudgetExceeded
| BudgetLow
| BudgetLeft (percentage : Q).

(** The values the report of [balance_command] is built from. *)
Record BalanceReport := {
  report_budget : Q;
  report_spent : Q;
  report_remaining : Q;
  report_note : balance_note
}.

(** [balance_command] for a configured [MONTHLY_BUDGET] (the environment
    variable, 0 when it is not set).  [None] stands for the
    [ZeroDivisionError] of [remaining / MONTHLY_BUDGET], raised before any
    reply is sent.  [dispatch] keeps of this command only that it leaves the
    state alone. *)
Definition balance_command (MONTHLY_BUDGET : Q) (env : Env) (st : State)
  : option BalanceReport :=
  let total_expenses := get_monthly_expenses env (sheet st) in
  let remaining := Qminus MONTHLY_BUDGET total_expenses in
  let report note :=
    {| report_budget := MONTHLY_BUDGET; report_spent := total_expenses;
       report_remaining := remaining; report_note := note |} in
  if negb (Qle_bool 0 remaining) then Some (report BudgetExceeded)
  else if negb (Qle_bool (Qmult MONTHLY_BUDGET (1 # 5)) remaining)
  then Some (report BudgetLow)
  else if Qeq_bool MONTHLY_BUDGET 0 then None
  else Some (report (BudgetLeft (Qmult (Qdiv remaining MONTHLY_BUDGET) 100))).

(** The row [add_expense_to_sheet] appends. *)
Definition expense_row (env : Env) (amount : Q) (category message : str) : Row :=
  {| row_timestamp := now env; row_date := take 10 (now env);
     row_category := category; row_amount := amount; row_message := message |}.

(** The sheet calls among the events of a handler. *)
Definition sheet_calls (out : list Event) : list sheet_call :=
  omap (fun e => match e with Sheet c => Some c | Reply _ => None end) out.

(** The input is one of the six commands. *)
Definition is_command (input : Input) : bool :=
  match input with
  | Message _ => false
  | _ => true
  end.

(** A handler environment in which the sheet cannot be reached. *)
Definition offline_env : Env :=
  {| online := false; now := u "2024-05-01 09:30:00"; sent_message_id := 11 |}.

(** The call writes a cell of the sheet row [n]. *)
Definition writes_row (n : nat) (c : sheet_call) : Prop :=
  exists col value, c = update_cell n col value.

(** ** Text lemmas *)

Lemma str_eqb_eq a b : str_eqb a b = true <-> a = b.
Proof.
  revert b; induction a as [|x a IH]; intros [|y b]; simpl; try (split; congruence).
  rewrite andb_true_iff, N.eqb_eq, IH. split; [intros [-> ->]; done | intros [= -> ->]; done].
Qed.

Lemma str_eqb_refl a : str_eqb a a = true.
Proof. by apply str_eqb_eq. Qed.


Lemma starts_with_spec p s : starts_with p s = true <-> exists post, s = p ++ post.
Proof.
  revert s; induction p as [|x p IH]; intros s; simpl.
  - split; [intros _; by exists s | done].
  - destruct s as [|y s].
    + split; [done | intros [post Hp]; discriminate].
    + rewrite andb_true_iff, N.eqb_eq, IH. split.
      * intros [-> [post ->]]. by exists post.
      * intros [post [= -> ->]]. split; [done | by exists post].
Qed.

Lemma contains_spec k s : contains k s = true <-> substring k s.
Proof.
  unfold substring. induction s as [|c s IH]; simpl.
  - rewrite orb_false_r, starts_with_spec. split.
    + intros [post Hp]. by exists [], post.
    + intros [pre [post Hp]]. destruct pre; [by exists post | discriminate].
  - rewrite orb_true_iff, starts_with_spec, IH. split.
    + intros [[post Hp] | [pre [post Hp]]].
      * by exists [], post.
      * exists (c :: pre), post. by rewrite Hp.
    + intros [[|x pre] [post Hp]].
      * left. by exists post.
      * right. injection Hp as -> ->. by exists pre, post.
Qed.











(** ** The extractor *)




(** ** The classifier *)

Lemma lower_app a b : lower (a ++ b) = lower a ++ lower b.
Proof. apply List.map_app. Qed.

Lemma contains_lower k text :
  contains (lower k) (lower text) = true <-> occurs_ignoring_case k text.
Proof.
  rewrite contains_spec. unfold substring, occurs_ignoring_case. split.
  - intros (a & b & Heq). unfold lower in Heq at 1.
    apply List.map_eq_app in Heq as (pre & rest & -> & Hpre & Hrest).
    apply List.map_eq_app in Hrest as (seg & post & -> & Hseg & Hpost).
    by exists pre, seg, post.
  - intros (pre & seg & post & -> & Hseg).
    exists (lower pre), (lower post). by rewrite !lower_app, Hseg.
Qed.




Lemma detect_in_member table text_lower :
  detect_in table text_lower ∈ table.*1 ++ [OTHER].
Proof.
  induction table as [|[c ks] table IH]; simpl; [apply list_elem_of_here |].
  destruct (existsb _ ks); [apply list_elem_of_here | by apply list_elem_of_further].
Qed.




(** ** The matcher *)

Lemma row_matches_spec amount category message record :
  row_matches amount category message record = true
  <-> same_triple amount category message record.
Proof.
  unfold row_matches, same_triple.
  rewrite !andb_true_iff, Qeq_bool_iff, !str_eqb_eq. tauto.
Qed.

Lemma row_matches_false amount category message record :
  row_matches amount category message record = false
  <-> ~ same_triple amount category message record.
Proof.
  rewrite <- row_matches_spec. destruct (row_matches _ _ _ _); split; congruence.
Qed.

(** The downward loop stops at the highest index below [n] that passes. *)
Lemma scan_down_found test records n i :
  scan_down test records n = Some i ->
  (i < n)%nat
  /\ (exists r, records !! i = Some r /\ test r = true)
  /\ (forall j r, (i < j < n)%nat -> records !! j = Some r -> test r = false).
Proof.
  induction n as [|n IH]; simpl; [done |].
  destruct (records !! n) as [r|] eqn:Hn.
  - destruct (test r) eqn:Ht.
    + intros [= <-]. split; [lia |]. split; [by exists r |]. intros j r' Hj. lia.
    + intros Hs. destruct (IH Hs) as (Hi & Hr & Hafter).
      split; [lia |]. split; [done |]. intros j r' Hj Hl.
      destruct (decide (j = n)) as [-> | Hne]; [congruence |].
      apply (Hafter j); [lia | done].
  - intros Hs. destruct (IH Hs) as (Hi & Hr & Hafter).
    split; [lia |]. split; [done |]. intros j r' Hj Hl.
    destruct (decide (j = n)) as [-> | Hne]; [congruence |].
    apply (Hafter j); [lia | done].
Qed.






Lemma count_events_app p out1 out2 :
  count_events p (out1 ++ out2) = (count_events p out1 + count_events p out2)%nat.
Proof. unfold count_events. by rewrite List.filter_app, length_app. Qed.

(** ** The set of processed messages *)

Section Dedup.
Context `{!SetOrder}.

Lemma set_list_NoDup (s : gset Z) : NoDup (set_list s).
Proof. rewrite set_list_perm. apply NoDup_elements. Qed.

Lemma set_list_length (s : gset Z) : length (set_list s) = size s.
Proof. by rewrite set_list_perm. Qed.

Lemma elem_of_set_list x (s : gset Z) : x ∈ set_list s <-> x ∈ s.
Proof. rewrite set_list_perm. apply elem_of_elements. Qed.

Lemma mark_processed_small id (seen : gset Z) :
  (size ({[id]} ∪ seen) <= 100)%nat -> mark_processed id seen = {[id]} ∪ seen.
Proof.
  intros Hsize. unfold mark_processed.
  destruct (100 <? size ({[id]} ∪ seen))%nat eqn:Hlt; [| done].
  apply Nat.ltb_lt in Hlt. lia.
Qed.

Lemma mark_processed_overflow id (seen : gset Z) :
  (100 < size ({[id]} ∪ seen))%nat ->
  mark_processed id seen
  = list_to_set (drop (size ({[id]} ∪ seen) - 100) (set_list ({[id]} ∪ seen))).
Proof.
  intros Hsize. unfold mark_processed.
  destruct (100 <? size ({[id]} ∪ seen))%nat eqn:Hlt.
  - by rewrite set_list_length.
  - apply Nat.ltb_ge in Hlt. lia.
Qed.

Lemma mark_processed_subseteq id (seen : gset Z) :
  mark_processed id seen ⊆ {[id]} ∪ seen.
Proof.
  destruct (le_lt_dec (size ({[id]} ∪ seen)) 100) as [Hle | Hlt].
  - by rewrite mark_processed_small.
  - rewrite mark_processed_overflow by done. intros x Hx.
    apply elem_of_list_to_set in Hx. apply elem_of_set_list.
    revert Hx. apply subseteq_drop.
Qed.

Lemma mark_processed_size id (seen : gset Z) :
  (100 < size ({[id]} ∪ seen))%nat -> size (mark_processed id seen) = 100%nat.
Proof.
  intros Hlt. rewrite mark_processed_overflow by done.
  rewrite size_list_to_set.
  - rewrite length_drop, set_list_length. lia.
  - apply (sublist_NoDup _ (set_list ({[id]} ∪ seen))); [apply set_list_NoDup | apply sublist_drop].
Qed.

Lemma size_record id (seen : gset Z) :
  (size ({[id]} ∪ seen) <= S (size seen))%nat.
Proof.
  rewrite size_union_alt, size_singleton.
  assert (seen ∖ {[id]} ⊆ seen) as Hsub by apply subseteq_difference_l, reflexivity.
  pose proof (subseteq_size _ _ Hsub). lia.
Qed.

Lemma mark_processed_bounded id (seen : gset Z) :
  (size seen <= 100)%nat -> (size (mark_processed id seen) <= 100)%nat.
Proof.
  intros Hle.
  destruct (le_lt_dec (size ({[id]} ∪ seen)) 100) as [Hsmall | Hlt].
  - by rewrite mark_processed_small.
  - by rewrite mark_processed_size.
Qed.

(** *** The handlers and the set *)

Lemma handle_message_duplicate env upd st :
  message_id upd ∈ processed_messages st -> handle_message env upd st = (st, []).
Proof. intros Hin. unfold handle_message. by rewrite decide_True. Qed.

Lemma handle_message_marks env upd st :
  message_id upd ∉ processed_messages st ->
  processed_messages (handle_message env upd st).1
  = mark_processed (message_id upd) (processed_messages st).
Proof.
  intros Hnew. unfold handle_message, log_expense. rewrite decide_False by done.
  repeat case_match; done.
Qed.

Lemma dispatch_command_processed env input st :
  (forall upd, input <> Message upd) ->
  processed_messages (dispatch env input st).1 = processed_messages st.
Proof.
  intros Hcmd. destruct input; simpl; try done.
  - unfold recent_command. by case_match.
  - unfold delete_command. repeat case_match; done.
  - unfold deleteall_command. repeat case_match; done.
  - by destruct (Hcmd upd).
Qed.


Lemma run_app inputs1 inputs2 st :
  run (inputs1 ++ inputs2) st
  = ((run inputs2 (run inputs1 st).1).1,
     (run inputs1 st).2 ++ (run inputs2 (run inputs1 st).1).2).
Proof.
  revert st. induction inputs1 as [|[env input] inputs1 IH]; intros st; simpl.
  - by destruct (run inputs2 st).
  - destruct (dispatch env input st) as [st1 out1]. rewrite IH.
    destruct (run inputs1 st1) as [st2 out2]. simpl.
    destruct (run inputs2 st2) as [st3 out3]. simpl. by rewrite app_assoc.
Qed.

Lemma run_cons env input rest st :
  run ((env, input) :: rest) st
  = ((run rest (dispatch env input st).1).1,
     (dispatch env input st).2 ++ (run rest (dispatch env input st).1).2).
Proof.
  simpl. destruct (dispatch env input st) as [st1 out1]. simpl.
  by destruct (run rest st1).
Qed.


End Dedup.

(** C6, as the code has it. The set of processed identifiers is trimmed only
    when, with the new identifier recorded, it holds more than 100: it is then
    cut back in one batch to exactly 100 identifiers, the last hundred of the
    listing of the set; below that nothing is evicted.  A set that held at
    most 100 identifiers therefore loses at most one identifier per message,
    and this is what [handle_message] leaves as the set. *)
Theorem processed_messages_trimmed_to_hundred `{!SetOrder} (id : Z) (seen : gset Z) :
  let recorded := {[id]} ∪ seen in
  let kept := mark_processed id seen in
  ((size recorded <= 100)%nat -> kept = recorded)
  /\ ((100 < size recorded)%nat ->
      size kept = 100%nat
      /\ kept ⊆ recorded
      /\ size (recorded ∖ kept) = (size recorded - 100)%nat
      /\ kept = list_to_set (drop (size recorded - 100) (set_list recorded)))
  /\ ((size seen <= 100)%nat ->
      (size kept <= 100)%nat /\ (size (recorded ∖ kept) <= 1)%nat)
  /\ (forall env upd st,
        message_id upd = id -> processed_messages st = seen -> id ∉ seen ->
        processed_messages (handle_message env upd st).1 = kept).
Proof.
  intros recorded kept. subst recorded kept.
  assert ((100 < size ({[id]} ∪ seen))%nat ->
          size (({[id]} ∪ seen) ∖ mark_processed id seen)
          = (size ({[id]} ∪ seen) - 100)%nat) as Hevicted.
  { intros Hlt. rewrite size_difference by apply mark_processed_subseteq.
    by rewrite mark_processed_size. }
  split; [apply mark_processed_small |].
  split.
  { intros Hlt. split; [by apply mark_processed_size |].
    split; [apply mark_processed_subseteq |].
    split; [by apply Hevicted | by apply mark_processed_overflow]. }
  split.
  - intros Hle. pose proof (size_record id seen) as Hrec.
    destruct (le_lt_dec (size ({[id]} ∪ seen)) 100) as [Hsmall | Hlt].
    + rewrite mark_processed_small by done. split; [done |].
      rewrite difference_diag_L.
      rewrite size_empty. lia.
    + rewrite mark_processed_size by done. rewrite Hevicted by done. lia.
  - intros env upd st <- <- Hnew. by apply handle_message_marks.
Qed.

(** C6 as stated fails: a set of 100 identifiers that receives a new one holds
    101 and is cut back to 100; one identifier is evicted, not fifty. *)
Lemma overflow_evicts_one_not_fifty :
  size ({[101%Z]} ∪ hundred_seen) = 101%nat
  /\ size (mark_processed 101 hundred_seen) = 100%nat
  /\ size (({[101%Z]} ∪ hundred_seen) ∖ mark_processed 101 hundred_seen) = 1%nat.
Proof. vm_compute. repeat split. Qed.



(** ** The confirmation gate *)

Section Gate.
Context `{!SetOrder}.

Lemma count_positive (rows : list Row) :
  rows <> [] -> (Z.of_nat (S (length rows)) - 1 <=? 0)%Z = false.
Proof. intros Hne. destruct rows; [done |]. apply Z.leb_gt. simpl length. lia. Qed.

(** A message that is not discarded leaves no confirmation pending. *)
Lemma handle_message_idle env upd st :
  message_id upd ∉ processed_messages st ->
  pending_deleteall (handle_message env upd st).1 = false.
Proof.
  intros Hnew. unfold handle_message, log_expense. rewrite decide_False by done.
  cbn [set_processed pending_deleteall].
  destruct (pending_deleteall st) eqn:Hp; repeat case_match; simpl; done.
Qed.




End Gate.


(** ** The [delete] command *)

Lemma get_recent_length env rows limit :
  online env = true ->
  length (get_recent_transactions env rows limit) = min limit (length rows).
Proof.
  intros Hon. unfold get_recent_transactions. rewrite Hon. cbn [negb].
  rewrite length_imap, length_drop. lia.
Qed.




(** ** Replies to a tracked message *)

Section Replies.
Context `{!SetOrder}.


Lemma lower_delete : lower (u "delete") = u "delete".
Proof. reflexivity. Qed.





End Replies.





(** ** The note of an edited amount *)

(** C7 at an amount with a fraction.  The record (250.5, Food, "Lunch 250.5")
    is edited to 300.25: the amount cell gets 300.25, and in the note the
    integer part 250 is replaced by the integer part 300, which leaves
    "Lunch 300.5".  The same happens when the record is logged and then
    edited by a reply. *)
Lemma note_rewrite_uses_integer_parts :
  (update_transaction sample_env [lunch_decimal] (501 # 2) (u "Food") (u "Lunch 250.5")
     (Some (1201 # 4)%Q) None).2
  = [update_cell 2 4 (CNumber (1201 # 4)); update_cell 2 5 (CText (u "Lunch 300.5"))]
  /\ sheet (run [(sample_env, Message {| message_id := 1; text := u "Lunch 250.5";
                                         reply_to_message := None |});
                 (sample_env, Message {| message_id := 12; text := u "300.25";
                                         reply_to_message := Some 11%Z |})]
                (initial_state [])).1
     = [set_cell 5 (CText (u "Lunch 300.5")) (set_cell 4 (CNumber (1201 # 4)) lunch_decimal)].
Proof. vm_compute. split; reflexivity. Qed.

(** ** Redelivery after the clean-up, for every listing order *)

Section Redelivery.
Context `{!SetOrder}.

(** What one expense text does: nothing when its identifier is recorded, and
    one appended row otherwise. *)
Lemma lunch_step i st :
  pending_deleteall st = false ->
  pending_deleteall (dispatch (lunch_update i).1 (lunch_update i).2 st).1 = false
  /\ (i ∈ processed_messages st ->
      dispatch (lunch_update i).1 (lunch_update i).2 st = (st, []))
  /\ (i ∉ processed_messages st ->
      count_events is_append (dispatch (lunch_update i).1 (lunch_update i).2 st).2 = 1%nat
      /\ processed_messages (dispatch (lunch_update i).1 (lunch_update i).2 st).1
         = mark_processed i (processed_messages st)).
Proof.
  intros Hidle. cbn [lunch_update fst snd dispatch].
  split; [| split].
  - destruct (decide (i ∈ processed_messages st)) as [Hin | Hnew].
    + by rewrite handle_message_duplicate.
    + by apply handle_message_idle.
  - intros Hin. by apply handle_message_duplicate.
  - intros Hnew. split; [| by apply handle_message_marks].
    unfold handle_message. cbn [message_id text reply_to_message].
    rewrite decide_False by done.
    cbn [set_processed pending_deleteall]. rewrite Hidle. reflexivity.
Qed.

Lemma lunch_run_fresh ids st :
  pending_deleteall st = false -> NoDup ids ->
  (forall i, i ∈ ids -> i ∉ processed_messages st) ->
  (size (processed_messages st) <= 100)%nat ->
  count_events is_append (run (List.map lunch_update ids) st).2 = length ids
  /\ pending_deleteall (run (List.map lunch_update ids) st).1 = false
  /\ (size (processed_messages (run (List.map lunch_update ids) st).1) <= 100)%nat.
Proof.
  revert st. induction ids as [|i ids IH]; intros st Hidle Hnodup Hfresh Hsize.
  - simpl. done.
  - apply NoDup_cons in Hnodup as [Hi Hnodup].
    destruct (lunch_step i st Hidle) as (Hidle1 & _ & Hstep).
    destruct Hstep as [Hone Hmark]; [apply Hfresh; apply list_elem_of_here |].
    cbn [List.map]. destruct (lunch_update i) as [env input] eqn:Hupd.
    rewrite run_cons. cbn [fst snd] in *.
    destruct (IH (dispatch env input st).1) as (Hcount & Hidle2 & Hsize2); try done.
    + intros j Hj. rewrite Hmark. intros Hin.
      apply mark_processed_subseteq in Hin.
      apply elem_of_union in Hin as [Hin | Hin].
      * apply elem_of_singleton in Hin as ->. done.
      * by apply (Hfresh j (list_elem_of_further _ _ _ Hj)).
    + rewrite Hmark. by apply mark_processed_bounded.
    + rewrite count_events_app, Hone, Hcount. done.
Qed.

Lemma lunch_run_some ids st :
  pending_deleteall st = false ->
  (exists i, i ∈ ids /\ i ∉ processed_messages st) ->
  (1 <= count_events is_append (run (List.map lunch_update ids) st).2)%nat.
Proof.
  revert st. induction ids as [|i0 ids IH]; intros st Hidle (i & Hin & Hnew).
  - inversion Hin.
  - destruct (lunch_step i0 st Hidle) as (Hidle1 & Hdup & Hstep).
    cbn [List.map]. destruct (lunch_update i0) as [env input] eqn:Hupd.
    rewrite run_cons. cbn [fst snd] in *. rewrite count_events_app.
    destruct (decide (i0 ∈ processed_messages st)) as [Hin0 | Hnew0].
    + rewrite (Hdup Hin0). cbn [fst snd]. apply IH; [done |].
      exists i. split; [| done].
      apply elem_of_cons in Hin as [-> | Hin]; done.
    + destruct (Hstep Hnew0) as [Hone _]. lia.
Qed.

(** A set smaller than a list without repetition misses one of its elements. *)
Lemma missing_element (ids : list Z) (seen : gset Z) :
  NoDup ids -> (size seen < length ids)%nat -> exists i, i ∈ ids /\ i ∉ seen.
Proof.
  intros Hnodup Hsize.
  destruct (decide (Forall (fun i => i ∈ seen) ids)) as [Hall | Hsome].
  - assert (list_to_set ids ⊆ seen) as Hsub.
    { intros i Hi. apply elem_of_list_to_set in Hi.
      by apply (proj1 (Forall_forall _ _) Hall). }
    apply subseteq_size in Hsub. rewrite size_list_to_set in Hsub by done. lia.
  - apply not_Forall_Exists in Hsome; [| apply _].
    apply Exists_exists in Hsome as (i & Hin & Hnot). by exists i.
Qed.

(** Whatever the listing order of the set, 101 identifiers delivered once and
    then once more append more than 101 rows. *)
Lemma redelivery_after_overflow_any_order :
  (101 < count_events is_append
           (run (lunch_updates ++ lunch_updates) (initial_state [])).2)%nat.
Proof.
  assert (NoDup (seqZ 1 101)) as Hnodup by apply NoDup_seqZ.
  assert (length (seqZ 1 101) = 101%nat) as Hlen by apply length_seqZ.
  rewrite run_app. cbn [snd]. rewrite count_events_app. unfold lunch_updates.
  destruct (lunch_run_fresh (seqZ 1 101) (initial_state []) eq_refl Hnodup)
    as (Hcount & Hidle & Hsize).
  { intros i _. cbn [initial_state processed_messages]. apply not_elem_of_empty. }
  { cbn [initial_state processed_messages]. rewrite size_empty. lia. }
  rewrite Hcount, Hlen.
  pose proof (lunch_run_some (seqZ 1 101) _ Hidle) as Hsome.
  assert (1 <= count_events is_append
                 (run (List.map lunch_update (seqZ 1 101))
                    (run (List.map lunch_update (seqZ 1 101)) (initial_state [])).1).2)%nat
    as Hmore; [| lia].
  apply Hsome. apply missing_element; [exact Hnodup |]. rewrite Hlen. lia.
Qed.

End Redelivery.

(** ** The note of an edited amount, continued *)

Lemma match_word_occurs p prev s rest :
  match_word p prev s = Some rest ->
  s = p ++ rest
  /\ word_boundary prev (head (p ++ rest)) = true
  /\ word_boundary (last p) (head rest) = true.
Proof.
  unfold match_word.
  destruct (word_boundary prev (head s)) eqn:Hb1; [| done].
  destruct (starts_with p s) eqn:Hs; [| done]. cbn [andb].
  apply starts_with_spec in Hs as [post ->].
  rewrite drop_app_length.
  destruct (word_boundary (last p) (head post)) eqn:Hb2; [| done].
  by intros [= <-].
Qed.

Lemma sub_word_from_unchanged fuel p r pre s :
  ~ whole_word p (pre ++ s) -> (length s <= fuel)%nat ->
  sub_word_from fuel p r (last pre) s = s.
Proof.
  revert fuel pre. induction s as [|c s IH]; intros fuel pre Hno Hfuel.
  - by destruct fuel.
  - destruct fuel as [|fuel]; [simpl in Hfuel; lia |].
    cbn [sub_word_from].
    destruct (match_word p (last pre) (c :: s)) as [rest|] eqn:Hm.
    + destruct (match_word_occurs _ _ _ _ Hm) as (Heq & Hb1 & Hb2).
      destruct Hno. exists pre, rest. split; [by rewrite Heq | by split].
    + f_equal. replace (Some c) with (last (pre ++ [c])) by apply last_snoc.
      apply IH; [by rewrite <- app_assoc | simpl in Hfuel; lia].
Qed.

Lemma sub_word_unchanged p r s : ~ whole_word p s -> sub_word p r s = s.
Proof.
  intros Hno. unfold sub_word.
  by apply (sub_word_from_unchanged (length s) p r [] s).
Qed.

(** X2. When the amount of the matched row changes and the integer part of the
    old amount does not occur in its note as a whole word, the update writes
    the amount cell and leaves the note cell alone. *)
Lemma update_transaction_keeps_note env rows i row amount category message a :
  online env = true ->
  scan_down (row_matches amount category message) rows (length rows) = Some i ->
  rows !! i = Some row ->
  ~ Qeq a (row_amount row) ->
  ~ whole_word (str_of_Z (int_of_float (row_amount row))) (row_message row) ->
  (update_transaction env rows amount category message (Some a) None).2
  = [update_cell (i + 2) 4 (CNumber a)].
Proof.
  intros Hon Hscan Hrow Hne Hno. unfold update_transaction.
  rewrite Hon, Hscan, Hrow. cbn [negb].
  assert (Qeq_bool a (row_amount row) = false) as ->.
  { destruct (Qeq_bool a (row_amount row)) eqn:Hq; [| done].
    apply Qeq_bool_iff in Hq. by destruct Hne. }
  cbn [negb andb snd]. rewrite (sub_word_unchanged _ _ _ Hno), str_eqb_refl. done.
Qed.

(** The text "rent 1,500" is logged with the amount 1500; its note does not
    hold 1500 as a word, so an edit to 1600 writes the amount cell only. *)
Lemma update_transaction_keeps_note_witness :
  (update_transaction sample_env [rent_row] (1500 # 1) (u "Bills") (u "rent 1,500")
     (Some (1600 # 1)%Q) None).2
  = [update_cell 2 4 (CNumber (1600 # 1))].
Proof.
  apply (update_transaction_keeps_note sample_env [rent_row] 0 rent_row
           (1500 # 1) (u "Bills") (u "rent 1,500") (1600 # 1) eq_refl eq_refl eq_refl).
  - intros Hq. discriminate Hq.
  - intros (pre & post & Heq & _).
    assert (contains (u "1500") (u "rent 1,500") = true) as Hc
      by (apply contains_spec; by exists pre, post).
    vm_compute in Hc. discriminate Hc.
Defined.

(** Where the integer part does occur as a word it is replaced, also when it
    is followed by a fraction. *)
Example note_rewrite_examples :
  (update_transaction sample_env [lunch_row "2024-04-28 13:00:00"]
     (100 # 1) (u "Food") (u "lunch 100") (Some (120 # 1)%Q) None).2
  = [update_cell 2 4 (CNumber (120 # 1)); update_cell 2 5 (CText (u "lunch 120"))]
  /\ (update_transaction sample_env [taxi_row; lunch_decimal]
        (501 # 2) (u "Food") (u "Lunch 250.5") (Some (260 # 1)%Q) None).2
     = [update_cell 3 4 (CNumber (260 # 1)); update_cell 3 5 (CText (u "Lunch 260.5"))].
Proof. vm_compute. split; reflexivity. Qed.

(** ** Further examples *)

(** The phrase is accepted in any case and with white space around it. *)
Example confirmation_ignores_case_and_space :
  upper (strip (u "  confirm Delete all ")) = u "CONFIRM DELETE ALL".
Proof. reflexivity. Qed.

(** The reply "0" to the tracked record: the amount found is 0.0, which the
    edit check reads as no amount, so the reply is logged as a new expense of
    amount 0 and the tracked record is left as it was. *)
Example reply_zero_is_logged_as_a_new_expense :
  update_amount_flag (u "0") = false
  /\ (handle_message sample_env (reply_update "0") tracked_state).2
     = [Sheet (append_row
                 {| row_timestamp := u "2024-05-01 09:30:00";
                    row_date := u "2024-05-01"; row_category := u "Other";
                    row_amount := 0 # 1; row_message := u "0" |});
        Reply (RExpenseRecorded (u "Other") (0 # 1) (u "0"))].
Proof. vm_compute. split; reflexivity. Qed.

(** ** Instances *)



(** A hundred identifiers and a new one: the set is cut back to a hundred. *)
Lemma processed_messages_trimmed_to_hundred_witness :
  size (mark_processed 101 hundred_seen) = 100%nat
  /\ mark_processed 101 hundred_seen ⊆ {[101%Z]} ∪ hundred_seen.
Proof.
  destruct (processed_messages_trimmed_to_hundred 101 hundred_seen)
    as (_ & Hover & _).
  destruct Hover as (Hsize & Hsub & _); [vm_compute; lia |].
  split; [exact Hsize | exact Hsub].
Defined.




(** * Further properties of the code *)

(** ** The rows the bot writes *)

Lemma digits_val_from_nonneg ds acc :
  (0 <= acc)%Z ->
  (0 <= fold_left (fun acc c => 10 * acc + digit_val c) ds acc)%Z.
Proof.
  revert acc. induction ds as [|c ds IH]; intros acc Hacc; simpl; [done |].
  apply IH. unfold digit_val. lia.
Qed.

Lemma float_of_token_nonneg tok : Qle 0 (float_of_token tok).
Proof.
  unfold float_of_token. destruct (span is_digit tok) as [ip r].
  rewrite Qred_correct.
  pose proof (digits_val_from_nonneg ip 0 ltac:(lia)) as Hip.
  pose proof (digits_val_from_nonneg
                (match r with 46 :: f => f | _ => [] end) 0 ltac:(lia)) as Hfp.
  unfold digits_val, Qle, Qplus, inject_Z. simpl. nia.
Qed.

(** X4. An amount [extract_amount] returns is never negative. *)
Theorem extract_amount_never_negative text amount :
  extract_amount text = Some amount -> Qle 0 amount.
Proof.
  unfold extract_amount. destruct (findall_number (strip_symbols text)); [done |].
  intros [= <-]. apply float_of_token_nonneg.
Qed.

Lemma extract_amount_never_negative_witness : Qle 0 (501 # 2).
Proof. exact (extract_amount_never_negative (u "Lunch 250.5") (501 # 2) eq_refl). Defined.

Section Written.
Context `{!SetOrder}.

Lemma log_expense_appends env upd st :
  List.filter is_append (log_expense env upd st).2 = []
  \/ exists amount,
       extract_amount (text upd) = Some amount /\ online env = true
       /\ List.filter is_append (log_expense env upd st).2
          = [Sheet (append_row (expense_row env amount
                                  (detect_category (text upd)) (text upd)))].
Proof.
  unfold log_expense, add_expense_to_sheet.
  destruct (extract_amount (text upd)) as [amount|]; [| by left].
  destruct (online env); [| by left]. right. by exists amount.
Qed.

Lemma handle_message_appends env upd st :
  List.filter is_append (handle_message env upd st).2 = []
  \/ exists amount,
       extract_amount (text upd) = Some amount /\ online env = true
       /\ List.filter is_append (handle_message env upd st).2
          = [Sheet (append_row (expense_row env amount
                                  (detect_category (text upd)) (text upd)))].
Proof.
  unfold handle_message.
  destruct (decide (message_id upd ∈ processed_messages st)); [by left |].
  cbn [set_processed pending_deleteall sheet transactions].
  destruct (pending_deleteall st).
  { left. unfold delete_all_transactions. repeat case_match; simplify_eq; reflexivity. }
  destruct (reply_to_message upd) as [replied|]; [| apply log_expense_appends].
  destruct (contains (u "delete") (lower (text upd))).
  { left. unfold find_and_delete_transaction. repeat case_match; simplify_eq; reflexivity. }
  destruct (transactions st !! replied) as [txn_data|]; [| apply log_expense_appends].
  destruct (update_amount_flag (text upd) || update_category_flag (text upd) txn_data);
    [| apply log_expense_appends].
  left. unfold update_transaction. repeat case_match; simplify_eq; reflexivity.
Qed.

Lemma command_appends env input st :
  is_command input = true -> List.filter is_append (dispatch env input st).2 = [].
Proof.
  destruct input; simpl; try done; intros _.
  - unfold recent_command. by case_match.
  - unfold delete_command, delete_transaction_by_row. repeat case_match; simplify_eq; done.
  - unfold deleteall_command. repeat case_match; done.
Qed.

(** X5. A row is appended to the sheet only by a text message, and the row
    holds the clock of the handler as timestamp, its first ten characters as
    date, the text as note, the amount extracted from the text, which is not
    negative, and the category detected in it, which is a category of the
    table or "Other". *)
Theorem appended_row_comes_from_the_text env input st row :
  Sheet (append_row row) ∈ (dispatch env input st).2 ->
  exists upd,
    input = Message upd
    /\ row_timestamp row = now env
    /\ row_date row = take 10 (now env)
    /\ row_message row = text upd
    /\ extract_amount (text upd) = Some (row_amount row)
    /\ Qle 0 (row_amount row)
    /\ row_category row = detect_category (text upd)
    /\ row_category row ∈ CATEGORY_KEYWORDS.*1 ++ [OTHER].
Proof.
  intros Hin.
  assert (In (Sheet (append_row row)) (List.filter is_append (dispatch env input st).2))
    as Hfilter by (apply filter_In; split; [by apply list_elem_of_In | done]).
  destruct (is_command input) eqn:Hcmd.
  { rewrite (command_appends env input st Hcmd) in Hfilter. destruct Hfilter. }
  destruct input as [| | | | | | upd]; try discriminate Hcmd. cbn [dispatch] in *.
  exists upd. split; [done |].
  destruct (handle_message_appends env upd st) as [Hnone | (amount & Ha & Hon & Hone)].
  { rewrite Hnone in Hfilter. destruct Hfilter. }
  rewrite Hone in Hfilter. destruct Hfilter as [[= <-] | []].
  cbn [expense_row row_timestamp row_date row_message row_amount row_category].
  repeat split; try done.
  - unfold extract_amount in Ha.
    destruct (findall_number (strip_symbols (text upd))); [done |].
    injection Ha as <-. apply float_of_token_nonneg.
  - unfold detect_category. apply detect_in_member.
Qed.

End Written.

Lemma appended_row_comes_from_the_text_witness :
  exists upd,
    Message {| message_id := 1; text := u "Lunch 250"; reply_to_message := None |}
    = Message upd
    /\ row_timestamp lunch_250 = now sample_env
    /\ row_date lunch_250 = take 10 (now sample_env)
    /\ row_message lunch_250 = text upd
    /\ extract_amount (text upd) = Some (row_amount lunch_250)
    /\ Qle 0 (row_amount lunch_250)
    /\ row_category lunch_250 = detect_category (text upd)
    /\ row_category lunch_250 ∈ CATEGORY_KEYWORDS.*1 ++ [OTHER].
Proof.
  apply (appended_row_comes_from_the_text sample_env
           (Message {| message_id := 1; text := u "Lunch 250";
                       reply_to_message := None |})
           (initial_state []) lunch_250).
  vm_compute. apply list_elem_of_here.
Defined.

(** ** An unreachable sheet *)

Section Unreachable.
Context `{!SetOrder}.

(** X6. While the sheet cannot be reached no handler makes a sheet call, and
    the rows and the tracked transactions stay as they are, whatever the
    input. *)
Theorem unreachable_sheet_is_left_alone env input st :
  online env = false ->
  sheet (dispatch env input st).1 = sheet st
  /\ transactions (dispatch env input st).1 = transactions st
  /\ sheet_calls (dispatch env input st).2 = [].
Proof.
  intros Hoff. destruct input as [| | | | args | | upd]; cbn [dispatch]; try done.
  - unfold recent_command. by case_match.
  - unfold delete_command, get_recent_transactions, delete_transaction_by_row.
    rewrite Hoff. cbn [negb]. repeat case_match; simplify_eq; done.
  - unfold deleteall_command. by rewrite Hoff.
  - unfold handle_message, log_expense, delete_all_transactions,
      find_and_delete_transaction, update_transaction, add_expense_to_sheet.
    rewrite Hoff. cbn [negb]. repeat case_match; simplify_eq; done.
Qed.

(** X10. [get_recent_transactions] answers an unreachable sheet with the
    empty list, so [recent] reports that there are no transactions and
    [delete] refuses every number with the range "between 1 and 0": the user
    gets the replies of a sheet that holds no transaction. *)
Theorem unreachable_sheet_reads_as_empty env st :
  online env = false ->
  recent_command env st = (st, [Reply RNoTransactions])
  /\ (forall arg rest txn_number,
        int_of_str arg = Some txn_number ->
        delete_command env (arg :: rest) st
        = (st, [Reply (RText (invalid_number_text txn_number 0))]))
  /\ (forall env' st' args,
        sheet st' = [] ->
        (recent_command env' st').2 = (recent_command env st).2
        /\ (delete_command env' args st').2 = (delete_command env args st).2).
Proof.
  intros Hoff.
  assert (get_recent_transactions env (sheet st) 10 = []) as Hnone
    by (unfold get_recent_transactions; by rewrite Hoff).
  assert (forall env' st', sheet st' = [] ->
            get_recent_transactions env' (sheet st') 10 = []) as Hempty.
  { intros env' st' ->. unfold get_recent_transactions. by destruct (online env'). }
  split; [| split].
  - unfold recent_command. by rewrite Hnone.
  - intros arg rest txn_number Hnum. unfold delete_command. rewrite Hnum, Hnone.
    cbn [length].
    destruct ((txn_number <? 1)%Z || (Z.of_nat 0 <? txn_number)%Z) eqn:Hout; [done |].
    apply orb_false_iff in Hout as [H1 H2].
    apply Z.ltb_ge in H1. apply Z.ltb_ge in H2. lia.
  - intros env' st' args Hrows. unfold recent_command, delete_command.
    rewrite Hnone, (Hempty env' st' Hrows). split; [done |].
    destruct args as [|arg rest]; [done |].
    destruct (int_of_str arg) as [txn_number|]; [| done].
    cbn [length]. by destruct ((txn_number <? 1)%Z || (Z.of_nat 0 <? txn_number)%Z).
Qed.

End Unreachable.

Lemma unreachable_sheet_is_left_alone_witness :
  sheet (dispatch offline_env (Message (reply_update "delete")) tracked_state).1
  = [lunch_250]
  /\ transactions (dispatch offline_env (Message (reply_update "delete")) tracked_state).1
     = transactions tracked_state
  /\ sheet_calls (dispatch offline_env (Message (reply_update "delete")) tracked_state).2
     = [].
Proof.
  exact (unreachable_sheet_is_left_alone offline_env (Message (reply_update "delete"))
           tracked_state eq_refl).
Defined.

Lemma unreachable_sheet_reads_as_empty_witness :
  recent_command offline_env tracked_state = (tracked_state, [Reply RNoTransactions])
  /\ delete_command offline_env [u "1"] tracked_state
     = (tracked_state, [Reply (RText (invalid_number_text 1 0))]).
Proof.
  destruct (unreachable_sheet_reads_as_empty offline_env tracked_state eq_refl)
    as (Hrecent & Hdelete & _).
  split; [exact Hrecent | exact (Hdelete (u "1") [] 1%Z eq_refl)].
Defined.

(** ** Listing and deleting by number *)

Lemma get_recent_lookup env rows limit k :
  online env = true ->
  get_recent_transactions env rows limit !! k
  = (fun record => ((length rows - limit + k) + 2, record)%nat)
      <$> rows !! (length rows - limit + k)%nat.
Proof.
  intros Hon. unfold get_recent_transactions. rewrite Hon. cbn [negb].
  by rewrite list_lookup_imap, lookup_drop.
Qed.

(** X9. With the sheet in reach, [get_recent_transactions] lists the last
    [limit] records of the sheet (all of them when there are fewer), oldest
    first, each with the number of the sheet row that holds it. *)
Theorem recent_transactions_are_the_last_rows env rows limit :
  online env = true ->
  (get_recent_transactions env rows limit).*2 = drop (length rows - limit) rows
  /\ length (get_recent_transactions env rows limit) = min limit (length rows)
  /\ (forall k row_number record,
        get_recent_transactions env rows limit !! k = Some (row_number, record) ->
        row_number = (length rows - limit + k + 2)%nat
        /\ rows !! (row_number - 2)%nat = Some record).
Proof.
  intros Hon. split; [| split].
  - apply list_eq. intros k.
    rewrite list_lookup_fmap, get_recent_lookup, lookup_drop by done.
    by destruct (rows !! (length rows - limit + k)%nat).
  - by apply get_recent_length.
  - intros k row_number record. rewrite get_recent_lookup by done.
    destruct (rows !! (length rows - limit + k)%nat) as [r|] eqn:Hr; [| done].
    intros [= <- <-]. split; [done |].
    by replace (length rows - limit + k + 2 - 2)%nat
      with (length rows - limit + k)%nat by lia.
Qed.

Lemma recent_transactions_are_the_last_rows_witness :
  (get_recent_transactions sample_env [taxi_row; rent_row; lunch_250] 2).*2
  = [rent_row; lunch_250]
  /\ get_recent_transactions sample_env [taxi_row; rent_row; lunch_250] 2 !! 0%nat
     = Some (3%nat, rent_row).
Proof.
  destruct (recent_transactions_are_the_last_rows sample_env
              [taxi_row; rent_row; lunch_250] 2 eq_refl) as (Hrows & _ & _).
  split; [exact Hrows | reflexivity].
Defined.

(** X8. With the sheet in reach, [delete] with a number within the list of
    [recent] deletes the sheet row of the transaction listed under that
    number and no other row, answers with that transaction, and leaves the
    tracked transactions and the pending confirmation as they are. *)
Theorem delete_command_deletes_the_listed_row env arg rest st txn_number :
  online env = true ->
  int_of_str arg = Some txn_number ->
  (1 <= txn_number <= Z.of_nat (length (get_recent_transactions env (sheet st) 10)))%Z ->
  exists row_number txn,
    get_recent_transactions env (sheet st) 10 !! Z.to_nat (txn_number - 1)
    = Some (row_number, txn)
    /\ sheet st !! (row_number - 2)%nat = Some txn
    /\ delete_command env (arg :: rest) st
       = (commit [delete_row row_number] st,
          [Sheet (delete_row row_number);
           Reply (RTransactionDeleted (row_category txn) (row_amount txn)
                    (row_message txn))])
    /\ sheet (commit [delete_row row_number] st)
       = take (row_number - 2) (sheet st) ++ drop (row_number - 1) (sheet st)
    /\ transactions (commit [delete_row row_number] st) = transactions st
    /\ pending_deleteall (commit [delete_row row_number] st) = pending_deleteall st.
Proof.
  intros Hon Hnum Hrange.
  destruct (get_recent_transactions env (sheet st) 10 !! Z.to_nat (txn_number - 1))
    as [[row_number txn]|] eqn:Hl.
  2: { apply lookup_ge_None in Hl. lia. }
  exists row_number, txn. split; [done |].
  pose proof Hl as Hl'. rewrite get_recent_lookup in Hl' by done.
  destruct (sheet st !! (length (sheet st) - 10 + Z.to_nat (txn_number - 1))%nat)
    as [r|] eqn:Hr; [| done].
  injection Hl' as <- <-.
  split.
  { by replace (length (sheet st) - 10 + Z.to_nat (txn_number - 1) + 2 - 2)%nat
      with (length (sheet st) - 10 + Z.to_nat (txn_number - 1))%nat by lia. }
  split; [| done].
  unfold delete_command. rewrite Hnum.
  destruct ((txn_number <? 1)%Z
            || (Z.of_nat (length (get_recent_transactions env (sheet st) 10))
                <? txn_number)%Z) eqn:Hout.
  { apply orb_true_iff in Hout as [H1 | H2];
      [apply Z.ltb_lt in H1 | apply Z.ltb_lt in H2]; lia. }
  rewrite Hl. unfold delete_transaction_by_row. rewrite Hon. cbn [negb].
  destruct (length (sheet st) - 10 + Z.to_nat (txn_number - 1) + 2 <? 2)%nat eqn:Hlt.
  { apply Nat.ltb_lt in Hlt. lia. }
  done.
Qed.

Lemma delete_command_deletes_the_listed_row_witness :
  exists row_number txn,
    get_recent_transactions sample_env [taxi_row; rent_row; lunch_250] 10
      !! Z.to_nat (2 - 1) = Some (row_number, txn)
    /\ [taxi_row; rent_row; lunch_250] !! (row_number - 2)%nat = Some txn
    /\ delete_command sample_env [u "2"] (initial_state [taxi_row; rent_row; lunch_250])
       = (commit [delete_row row_number] (initial_state [taxi_row; rent_row; lunch_250]),
          [Sheet (delete_row row_number);
           Reply (RTransactionDeleted (row_category txn) (row_amount txn)
                    (row_message txn))])
    /\ sheet (commit [delete_row row_number]
                (initial_state [taxi_row; rent_row; lunch_250]))
       = take (row_number - 2) [taxi_row; rent_row; lunch_250]
         ++ drop (row_number - 1) [taxi_row; rent_row; lunch_250]
    /\ transactions (commit [delete_row row_number]
                       (initial_state [taxi_row; rent_row; lunch_250])) = ∅
    /\ pending_deleteall (commit [delete_row row_number]
                            (initial_state [taxi_row; rent_row; lunch_250])) = false.
Proof.
  apply (delete_command_deletes_the_listed_row sample_env (u "2") []
           (initial_state [taxi_row; rent_row; lunch_250]) 2%Z eq_refl eq_refl).
  vm_compute. split; discriminate.
Defined.

(** ** Logging, then deleting by reply *)


Lemma scan_down_no_match test (records : list Row) n :
  (forall r, r ∈ records -> test r = false) -> scan_down test records n = None.
Proof.
  intros Hno. induction n as [|n IH]; simpl; [done |].
  destruct (records !! n) as [r|] eqn:Hr; [| done].
  rewrite (Hno r); [done |]. apply list_elem_of_lookup. by exists n.
Qed.


Section LogAndDelete.
Context `{!SetOrder}.


(** A reply that contains "delete", to a tracked message, handled while no
    confirmation is pending. *)
Lemma handle_message_reply_delete env upd st replied txn_data :
  message_id upd ∉ processed_messages st ->
  pending_deleteall st = false ->
  reply_to_message upd = Some replied ->
  contains (u "delete") (lower (text upd)) = true ->
  transactions st !! replied = Some txn_data ->
  let found :=
    find_and_delete_transaction env (sheet st) (txn_amount txn_data)
      (txn_category txn_data) (txn_message txn_data) in
  let st0 :=
    set_processed (mark_processed (message_id upd) (processed_messages st)) st in
  handle_message env upd st
  = (match found.1 with
     | Ok _ => set_transactions (delete replied (transactions st)) (commit found.2 st0)
     | Failed _ => commit found.2 st0
     end,
     List.map Sheet found.2
     ++ [Reply (match found.1 with
                | Ok _ => RTransactionDeleted (txn_category txn_data)
                            (txn_amount txn_data) (txn_message txn_data)
                | Failed error => RDeleteFailed error
                end)]).
Proof.
  intros Hnew Hidle Hreply Hdelete Htracked found st0. subst found st0.
  unfold handle_message. rewrite decide_False by done.
  cbn [set_processed pending_deleteall sheet transactions].
  rewrite Hidle, Hreply, Hdelete, Htracked.
  by destruct (find_and_delete_transaction env (sheet st) (txn_amount txn_data)
                 (txn_category txn_data) (txn_message txn_data)) as [[record | error] calls].
Qed.


End LogAndDelete.


(** ** Replies that fail or fall through *)

Section ReplyOutcomes.
Context `{!SetOrder}.

(** X17. A reply that contains "delete", to a tracked message, handled while
    no confirmation is pending: when the sheet cannot be reached the answer
    carries "Failed to connect to Google Sheets", and when it can and no row
    holds the tracked triple the answer carries "Transaction not found", a
    different text.  In both cases no sheet call is made and the rows and the
    tracked transactions, the entry of the message included, stay. *)
Theorem reply_delete_reports_why_it_failed env upd st replied txn_data :
  message_id upd ∉ processed_messages st ->
  pending_deleteall st = false ->
  reply_to_message upd = Some replied ->
  occurs_ignoring_case (u "delete") (text upd) ->
  transactions st !! replied = Some txn_data ->
  (online env = false ->
   (handle_message env upd st).2 = [Reply (RDeleteFailed CONNECT_FAILED)]
   /\ sheet (handle_message env upd st).1 = sheet st
   /\ transactions (handle_message env upd st).1 = transactions st)
  /\ (online env = true ->
      (forall r, r ∈ sheet st ->
                 ~ same_triple (txn_amount txn_data) (txn_category txn_data)
                     (txn_message txn_data) r) ->
      (handle_message env upd st).2 = [Reply (RDeleteFailed NOT_FOUND)]
      /\ sheet (handle_message env upd st).1 = sheet st
      /\ transactions (handle_message env upd st).1 = transactions st)
  /\ NOT_FOUND <> CONNECT_FAILED.
Proof.
  intros Hnew Hidle Hreply Hdelete Htracked.
  apply contains_lower in Hdelete. rewrite lower_delete in Hdelete.
  rewrite (handle_message_reply_delete env upd st replied txn_data) by done.
  unfold find_and_delete_transaction.
  split; [| split; [| discriminate]].
  - intros ->. done.
  - intros -> Hno. cbn [negb].
    rewrite scan_down_no_match; [done |].
    intros r Hr. apply row_matches_false. by apply Hno.
Qed.

(** X3. A reply to a tracked message in which the amount found is zero, and
    whose category asks for no edit, is not taken as an edit of the amount:
    the zero reads as "no amount".  The reply is logged as a new expense of
    that amount, and the tracked record is not touched. *)
Theorem zero_amount_reply_is_logged env upd st replied txn_data amount :
  message_id upd ∉ processed_messages st ->
  pending_deleteall st = false ->
  reply_to_message upd = Some replied ->
  transactions st !! replied = Some txn_data ->
  ~ occurs_ignoring_case (u "delete") (text upd) ->
  extract_amount (text upd) = Some amount ->
  Qeq amount 0 ->
  detect_category (text upd) = OTHER
  \/ detect_category (text upd) = txn_category txn_data ->
  online env = true ->
  (handle_message env upd st).2
  = [Sheet (append_row (expense_row env amount (detect_category (text upd)) (text upd)));
     Reply (RExpenseRecorded (detect_category (text upd)) amount (text upd))]
  /\ sheet (handle_message env upd st).1
     = sheet st ++ [expense_row env amount (detect_category (text upd)) (text upd)]
  /\ count_events is_edit (handle_message env upd st).2 = 0%nat.
Proof.
  intros Hnew Hidle Hreply Htracked Hnodelete Hamount Hzero Hcategory Hon.
  assert (contains (u "delete") (lower (text upd)) = false) as Hno.
  { destruct (contains (u "delete") (lower (text upd))) eqn:Hc; [| done].
    rewrite <- lower_delete in Hc. apply contains_lower in Hc. by destruct Hnodelete. }
  assert (update_amount_flag (text upd) = false) as Hfa.
  { unfold update_amount_flag, truthy. rewrite Hamount.
    by rewrite (proj2 (Qeq_bool_iff amount 0) Hzero). }
  assert (update_category_flag (text upd) txn_data = false) as Hfc.
  { unfold update_category_flag.
    destruct Hcategory as [-> | ->]; rewrite str_eqb_refl; [done |].
    by rewrite andb_false_r. }
  unfold handle_message, log_expense. rewrite decide_False by done.
  cbn [set_processed pending_deleteall sheet transactions].
  rewrite Hidle, Hreply, Hno, Htracked, Hfa, Hfc. cbn [orb].
  rewrite Hamount. unfold add_expense_to_sheet. rewrite Hon. done.
Qed.

End ReplyOutcomes.

Lemma reply_delete_reports_why_it_failed_witness :
  (handle_message offline_env (reply_update "delete") tracked_state).2
  = [Reply (RDeleteFailed CONNECT_FAILED)]
  /\ (handle_message sample_env
        {| message_id := 20; text := u "delete"; reply_to_message := Some 10%Z |}
        {| processed_messages := ∅; transactions := transactions tracked_state;
           pending_deleteall := false; deleteall_count := 0%Z;
           sheet := [taxi_row] |}).2
     = [Reply (RDeleteFailed NOT_FOUND)].
Proof.
  assert (occurs_ignoring_case (u "delete") (u "delete")) as Hocc
    by (by exists [], (u "delete"), []).
  assert (20%Z ∉ (∅ : gset Z)) as Hnew by apply not_elem_of_empty.
  split.
  - destruct (reply_delete_reports_why_it_failed offline_env (reply_update "delete")
                tracked_state 10%Z
                {| txn_amount := 250 # 1; txn_category := u "Food";
                   txn_message := u "Lunch 250" |} Hnew eq_refl eq_refl Hocc eq_refl)
      as (Hoff & _).
    exact (proj1 (Hoff eq_refl)).
  - destruct (reply_delete_reports_why_it_failed sample_env
                {| message_id := 20; text := u "delete"; reply_to_message := Some 10%Z |}
                {| processed_messages := ∅; transactions := transactions tracked_state;
                   pending_deleteall := false; deleteall_count := 0%Z;
                   sheet := [taxi_row] |} 10%Z
                {| txn_amount := 250 # 1; txn_category := u "Food";
                   txn_message := u "Lunch 250" |} Hnew eq_refl eq_refl Hocc eq_refl)
      as (_ & Hon & _).
    apply Hon; [reflexivity |].
    intros r Hr (_ & Hcat & _). apply list_elem_of_singleton in Hr as ->.
    discriminate Hcat.
Defined.

Lemma zero_amount_reply_is_logged_witness :
  (handle_message sample_env (reply_update "0.0") tracked_state).2
  = [Sheet (append_row (expense_row sample_env (0 # 1) (u "Other") (u "0.0")));
     Reply (RExpenseRecorded (u "Other") (0 # 1) (u "0.0"))]
  /\ sheet (handle_message sample_env (reply_update "0.0") tracked_state).1
     = [lunch_250; expense_row sample_env (0 # 1) (u "Other") (u "0.0")]
  /\ count_events is_edit
       (handle_message sample_env (reply_update "0.0") tracked_state).2 = 0%nat.
Proof.
  apply (zero_amount_reply_is_logged sample_env (reply_update "0.0") tracked_state 10%Z
           {| txn_amount := 250 # 1; txn_category := u "Food";
              txn_message := u "Lunch 250" |} (0 # 1)%Q).
  - apply not_elem_of_empty.
  - reflexivity.
  - reflexivity.
  - reflexivity.
  - intros Hocc. apply contains_lower in Hocc. vm_compute in Hocc. discriminate Hocc.
  - reflexivity.
  - reflexivity.
  - left. reflexivity.
  - reflexivity.
Defined.

(** ** What an update changes *)

Lemma set_cell_keeps_time col value r :
  row_timestamp (set_cell col value r) = row_timestamp r
  /\ row_date (set_cell col value r) = row_date r.
Proof.
  destruct col as [|[|[|[|[|[|col]]]]]], value; done.
Qed.

Lemma apply_update_cell i col value (rows : list Row) :
  apply_call (update_cell (i + 2) col value) rows = alter (set_cell col value) i rows.
Proof. simpl. by replace (i + 2 - 2)%nat with i by lia. Qed.

(** The calls of [update_transaction] write cells of the matched row. *)
Lemma update_transaction_calls env rows amount category message new_amount new_category :
  (update_transaction env rows amount category message new_amount new_category).2 = []
  \/ exists i,
       scan_down (row_matches amount category message) rows (length rows) = Some i
       /\ Forall (writes_row (i + 2))
            (update_transaction env rows amount category message
               new_amount new_category).2.
Proof.
  unfold update_transaction.
  destruct (online env); [| by left]. cbn [negb].
  destruct (scan_down (row_matches amount category message) rows (length rows))
    as [i|]; [| by left].
  destruct (rows !! i) as [row|]; [| by left].
  right. exists i. split; [done |].
  repeat case_match; simplify_eq; cbn [snd app];
    repeat (constructor; [by eexists _, _ |]); constructor.
Qed.

Lemma writes_keep_frame i calls (rows : list Row) :
  Forall (writes_row (i + 2)) calls ->
  length (apply_calls calls rows) = length rows
  /\ row_timestamp <$> apply_calls calls rows = row_timestamp <$> rows
  /\ row_date <$> apply_calls calls rows = row_date <$> rows
  /\ (forall j, j <> i -> apply_calls calls rows !! j = rows !! j).
Proof.
  intros Hcalls. revert rows.
  induction Hcalls as [|c calls (col & value & ->) _ IH]; intros rows; [done |].
  unfold apply_calls in *. cbn [fold_left]. rewrite apply_update_cell.
  destruct (IH (alter (set_cell col value) i rows)) as (Hlen & Htime & Hdate & Hother).
  rewrite Hlen, Htime, Hdate. rewrite length_alter.
  split; [done |].
  assert (forall field : Row -> str,
            (forall r, field (set_cell col value r) = field r) ->
            field <$> alter (set_cell col value) i rows = field <$> rows) as Hfield.
  { intros field Hf. apply list_eq. intros j. rewrite !list_lookup_fmap.
    destruct (decide (j = i)) as [-> | Hne].
    - rewrite list_lookup_alter_eq. destruct (rows !! i); [| done]. simpl. by rewrite Hf.
    - by rewrite list_lookup_alter_ne. }
  split; [apply Hfield; intros r; apply set_cell_keeps_time |].
  split; [apply Hfield; intros r; apply set_cell_keeps_time |].
  intros j Hne. rewrite Hother by done. by apply list_lookup_alter_ne.
Qed.


Lemma changed_row_mismatch amount category message row row' :
  row_matches amount category message row = true ->
  Qeq_bool (row_amount row') (row_amount row) = false
  \/ str_eqb (row_category row') (row_category row) = false ->
  row_matches amount category message row' = false.
Proof.
  unfold row_matches. rewrite !andb_true_iff. intros [[Ha Hc] _] Hchanged.
  apply Qeq_bool_iff in Ha. apply str_eqb_eq in Hc.
  destruct Hchanged as [Hq | Hs].
  - destruct (Qeq_bool (row_amount row') amount) eqn:Hq'; [| done].
    apply Qeq_bool_iff in Hq'.
    assert (Qeq (row_amount row') (row_amount row)) as Heq
      by (rewrite Hq'; by symmetry).
    apply Qeq_bool_iff in Heq. congruence.
  - rewrite Hc in Hs. rewrite Hs. by rewrite andb_false_r.
Qed.

(** After an update that succeeds the matched row no longer holds the triple. *)
Lemma update_transaction_row env rows amount category message new_amount new_category
    result i row :
  (update_transaction env rows amount category message new_amount new_category).1
  = Ok result ->
  scan_down (row_matches amount category message) rows (length rows) = Some i ->
  rows !! i = Some row ->
  exists row',
    apply_calls
      (update_transaction env rows amount category message new_amount new_category).2
      rows !! i = Some row'
    /\ row_matches amount category message row' = false.
Proof.
  intros Hok Hscan Hrow.
  destruct (scan_down_found _ _ _ _ Hscan) as (_ & (r & Hr & Hmatch) & _).
  rewrite Hrow in Hr. injection Hr as <-.
  revert Hok. unfold update_transaction. rewrite Hscan, Hrow.
  destruct (online env); [| done]. cbn [negb].
  destruct new_amount as [a'|], new_category as [c'|];
    try destruct (Qeq_bool a' (row_amount row)) eqn:Hqa;
    try destruct (str_eqb c' (row_category row)) eqn:Hsc;
    cbn [negb andb fst snd app]; try done; intros _;
    try destruct (str_eqb _ (row_message row));
    unfold apply_calls; cbn [negb app fold_left]; rewrite ?apply_update_cell;
    rewrite ?list_lookup_alter_eq, Hrow; cbn [fmap option_fmap option_map];
    (eexists; split; [reflexivity |]);
    apply (changed_row_mismatch _ _ _ row); try done; cbn; tauto.
Qed.

Lemma scan_down_ext test (l l' : list Row) n :
  (forall j, (j < n)%nat -> l !! j = l' !! j) ->
  scan_down test l n = scan_down test l' n.
Proof.
  induction n as [|n IH]; intros Hsame; simpl; [done |].
  rewrite <- (Hsame n) by lia. rewrite IH; [done |]. intros j Hj. apply Hsame. lia.
Qed.

Lemma scan_down_skip test (l : list Row) n i :
  (i <= n)%nat ->
  (forall j r, (i <= j < n)%nat -> l !! j = Some r -> test r = false) ->
  scan_down test l n = scan_down test l i.
Proof.
  induction n as [|n IH]; intros Hle Hno.
  - by replace i with 0%nat by lia.
  - destruct (decide (i = S n)) as [-> | Hne]; [done |]. simpl.
    destruct (l !! n) as [r|] eqn:Hr.
    + rewrite (Hno n r) by (done || lia). apply IH; [lia |].
      intros j r' Hj. apply Hno. lia.
    + apply IH; [lia |]. intros j r' Hj. apply Hno. lia.
Qed.

(** X12. [update_transaction] changes the amount or the category of the
    matched row, and nothing refreshes the tracked record, so after an update
    that succeeds the row no longer holds the tracked triple: the next search
    for the triple goes on below that row, and when no older row holds the
    triple both a further update and a delete end with
    "Transaction not found". *)
Theorem edited_row_is_no_longer_matched
    env rows amount category message new_amount new_category result i :
  (update_transaction env rows amount category message new_amount new_category).1
  = Ok result ->
  scan_down (row_matches amount category message) rows (length rows) = Some i ->
  let rows' :=
    apply_calls
      (update_transaction env rows amount category message new_amount new_category).2
      rows in
  (exists row', rows' !! i = Some row' /\ ~ same_triple amount category message row')
  /\ scan_down (row_matches amount category message) rows' (length rows')
     = scan_down (row_matches amount category message) rows i
  /\ ((forall j r, (j < i)%nat -> rows !! j = Some r ->
                   ~ same_triple amount category message r) ->
      forall env' new_amount' new_category',
        online env' = true ->
        (update_transaction env' rows' amount category message
           new_amount' new_category') = (Failed NOT_FOUND, [])
        /\ find_and_delete_transaction env' rows' amount category message
           = (Failed NOT_FOUND, [])).
Proof.
  intros Hok Hscan rows'.
  destruct (scan_down_found _ _ _ _ Hscan) as (Hi & (row & Hrow & Hmatch) & Hafter).
  destruct (update_transaction_row env rows amount category message new_amount
              new_category result i row Hok Hscan Hrow) as (row' & Hrow' & Hmiss).
  fold rows' in Hrow'.
  destruct (update_transaction_calls env rows amount category message new_amount
              new_category) as [Hnone | (i' & Hscan' & Hcalls)].
  { subst rows'. rewrite Hnone in Hrow'. cbn in Hrow'. congruence. }
  rewrite Hscan in Hscan'. injection Hscan' as <-.
  destruct (writes_keep_frame i _ rows Hcalls) as (Hlen & _ & _ & Hother).
  fold rows' in Hlen, Hother.
  assert (scan_down (row_matches amount category message) rows' (length rows')
          = scan_down (row_matches amount category message) rows i) as Hnext.
  { rewrite Hlen.
    rewrite (scan_down_skip _ rows' (length rows) i); [| lia |].
    - apply scan_down_ext. intros j Hj. apply Hother. lia.
    - intros j r Hj Hl. destruct (decide (j = i)) as [-> | Hne].
      + congruence.
      + rewrite Hother in Hl by done. apply (Hafter j r); [lia | done]. }
  split; [| split; [exact Hnext |]].
  - exists row'. split; [done |]. by apply row_matches_false.
  - intros Holder env' new_amount' new_category' Hon.
    assert (scan_down (row_matches amount category message) rows i = None) as Hnone.
    { destruct (scan_down (row_matches amount category message) rows i) as [k|] eqn:Hk;
        [| done].
      destruct (scan_down_found _ _ _ _ Hk) as (Hlt & (r & Hr & Ht) & _).
      apply row_matches_spec in Ht. by destruct (Holder k r). }
    unfold update_transaction, find_and_delete_transaction.
    by rewrite Hon, Hnext, Hnone.
Qed.

(** The row (250, Food, "Lunch 250") is edited to 300: the triple is no longer
    on the sheet. *)
Lemma edited_row_is_no_longer_matched_witness :
  find_and_delete_transaction sample_env
    (apply_calls
       (update_transaction sample_env [lunch_250] (250 # 1) (u "Food") (u "Lunch 250")
          (Some (300 # 1)%Q) None).2 [lunch_250])
    (250 # 1) (u "Food") (u "Lunch 250")
  = (Failed NOT_FOUND, []).
Proof.
  destruct (edited_row_is_no_longer_matched sample_env [lunch_250] (250 # 1) (u "Food")
              (u "Lunch 250") (Some (300 # 1)%Q) None
              {| old_amount := 250 # 1; new_amount := 300 # 1;
                 old_category := u "Food"; new_category := u "Food";
                 res_message := u "Lunch 250";
                 amount_changed := true; category_changed := false |}
              0%nat eq_refl eq_refl) as (_ & _ & Hgone).
  apply (Hgone ltac:(intros j r Hj; lia) sample_env None None eq_refl).
Defined.

(** ** Commands and the pending confirmation *)

Section Commands.
Context `{!SetOrder}.

Lemma command_keeps_pending env input st :
  is_command input = true ->
  pending_deleteall st = true ->
  pending_deleteall (dispatch env input st).1 = true
  /\ processed_messages (dispatch env input st).1 = processed_messages st.
Proof.
  intros Hcmd Hp. split.
  - destruct input; simpl; try done.
    + unfold recent_command. by case_match.
    + unfold delete_command. repeat case_match; simplify_eq; done.
    + unfold deleteall_command. repeat case_match; simplify_eq; done.
  - apply dispatch_command_processed. intros upd ->. discriminate Hcmd.
Qed.

Lemma commands_keep_pending inputs st :
  Forall (fun e => is_command e.2 = true) inputs ->
  pending_deleteall st = true ->
  pending_deleteall (run inputs st).1 = true
  /\ processed_messages (run inputs st).1 = processed_messages st.
Proof.
  intros Hall. revert st. induction Hall as [|[env input] inputs Hcmd _ IH];
    intros st Hp; [done |].
  rewrite run_cons. cbn [fst].
  destruct (command_keeps_pending env input st Hcmd Hp) as (Hp1 & Hsame).
  destruct (IH _ Hp1) as (Hp2 & Hsame2). split; [done | congruence].
Qed.

(** X13. Commands do not end a pending confirmation: once [deleteall] has
    asked for it, any number of commands may follow, and the confirmation
    phrase sent after them, with the sheet in reach, still deletes every row
    that is left and ends the pending state. *)
Theorem commands_do_not_cancel_confirmation commands env upd st :
  Forall (fun e => is_command e.2 = true) commands ->
  pending_deleteall st = true ->
  message_id upd ∉ processed_messages st ->
  upper (strip (text upd)) = u "CONFIRM DELETE ALL" ->
  online env = true ->
  pending_deleteall (run commands st).1 = true
  /\ sheet (run (commands ++ [(env, Message upd)]) st).1 = []
  /\ pending_deleteall (run (commands ++ [(env, Message upd)]) st).1 = false.
Proof.
  intros Hall Hp Hnew Hphrase Hon.
  destruct (commands_keep_pending commands st Hall Hp) as (Hp1 & Hsame).
  split; [done |].
  rewrite run_app, run_cons. change (run [] ?s) with (s, @nil Event).
  cbn [dispatch fst snd].
  unfold handle_message. rewrite Hsame, decide_False by done.
  cbn [set_processed pending_deleteall sheet]. rewrite Hp1, Hphrase, str_eqb_refl.
  unfold delete_all_transactions. rewrite Hon. cbn [negb].
  destruct (sheet (run commands st).1) as [|r rows] eqn:Hrows; [done |].
  rewrite count_positive by done. split; [| done].
  cbn [fst set_pending commit sheet apply_calls fold_left apply_call].
  replace (S (length (r :: rows)) - 1)%nat with (length (r :: rows)) by (simpl; lia).
  cbn [set_processed sheet Nat.sub take app]. rewrite Hrows.
  apply (drop_all (r :: rows)).
Qed.

(** X14. The set of processed identifiers never grows beyond a hundred:
    whatever inputs are handled, a set of at most 100 identifiers is still
    one after them. *)
Theorem processed_messages_stay_bounded inputs st :
  (size (processed_messages st) <= 100)%nat ->
  (size (processed_messages (run inputs st).1) <= 100)%nat.
Proof.
  revert st. induction inputs as [|[env input] inputs IH]; intros st Hsize; [done |].
  rewrite run_cons. cbn [fst]. apply IH.
  destruct (is_command input) eqn:Hcmd.
  - rewrite dispatch_command_processed; [done |]. intros upd ->. discriminate Hcmd.
  - destruct input as [| | | | | | upd]; try discriminate Hcmd. cbn [dispatch].
    destruct (decide (message_id upd ∈ processed_messages st)) as [Hin | Hnew].
    + by rewrite handle_message_duplicate.
    + rewrite handle_message_marks by done. by apply mark_processed_bounded.
Qed.

End Commands.

(** [deleteall] on three rows, then [recent] and [delete 1], then the phrase. *)
Lemma commands_do_not_cancel_confirmation_witness :
  sheet (run ([(sample_env, CmdRecent); (sample_env, CmdDelete [u "1"])]
              ++ [(sample_env, Message {| message_id := 5;
                                          text := u "confirm delete all";
                                          reply_to_message := None |})])
             (dispatch sample_env CmdDeleteAll
                (initial_state [taxi_row; rent_row; lunch_250])).1).1 = [].
Proof.
  destruct (commands_do_not_cancel_confirmation
              [(sample_env, CmdRecent); (sample_env, CmdDelete [u "1"])] sample_env
              {| message_id := 5; text := u "confirm delete all";
                 reply_to_message := None |}
              (dispatch sample_env CmdDeleteAll
                 (initial_state [taxi_row; rent_row; lunch_250])).1)
    as (_ & Hempty & _).
  - repeat constructor.
  - reflexivity.
  - vm_compute. intros Hin. inversion Hin.
  - reflexivity.
  - reflexivity.
  - exact Hempty.
Defined.

Lemma processed_messages_stay_bounded_witness :
  (size (processed_messages (run (lunch_updates ++ lunch_updates) (initial_state [])).1)
   <= 100)%nat.
Proof.
  apply processed_messages_stay_bounded. vm_compute. lia.
Defined.

(** ** Redelivery after the clean-up, in general *)

(** X1. Whatever order [list(set)] lists the processed identifiers in: when
    more than 100 new identifiers are delivered once with an expense text and
    then all of them once more, more rows are appended than there are
    identifiers.  The clean-up has dropped at least one identifier, whose
    second delivery is logged again. *)
Theorem redelivery_after_overflow_is_logged_again `{!SetOrder} ids st :
  NoDup ids ->
  (100 < length ids)%nat ->
  pending_deleteall st = false ->
  (forall i, i ∈ ids -> i ∉ processed_messages st) ->
  (size (processed_messages st) <= 100)%nat ->
  (length ids < count_events is_append
                  (run (List.map lunch_update ids ++ List.map lunch_update ids) st).2)%nat.
Proof.
  intros Hnodup Hmany Hidle Hfresh Hsize.
  rewrite run_app. cbn [snd]. rewrite count_events_app.
  destruct (lunch_run_fresh ids st Hidle Hnodup Hfresh Hsize) as (Hcount & Hidle1 & Hsize1).
  rewrite Hcount.
  pose proof (lunch_run_some ids _ Hidle1) as Hsome.
  assert (1 <= count_events is_append
                 (run (List.map lunch_update ids)
                    (run (List.map lunch_update ids) st).1).2)%nat as Hmore; [| lia].
  apply Hsome. apply missing_element; [done | lia].
Qed.

Lemma redelivery_after_overflow_is_logged_again_witness :
  (length (seqZ 1 101)
   < count_events is_append
       (run (List.map lunch_update (seqZ 1 101) ++ List.map lunch_update (seqZ 1 101))
          (initial_state [])).2)%nat.
Proof.
  apply redelivery_after_overflow_is_logged_again.
  - apply NoDup_seqZ.
  - vm_compute. lia.
  - reflexivity.
  - intros i _. apply not_elem_of_empty.
  - vm_compute. lia.
Defined.

(** ** The monthly total *)

Lemma month_starts_date (stamp : str) : starts_with (take 7 stamp) (take 10 stamp) = true.
Proof.
  apply starts_with_spec. exists (drop 7 (take 10 stamp)).
  rewrite <- (take_drop 7 (take 10 stamp)) at 1. by rewrite take_take.
Qed.

(** X15. With the sheet in reach, [get_monthly_expenses] grows by the amount
    of an appended row when the date of the row starts with the current
    month, and is unchanged by an appended row of another month.  The row
    [add_expense_to_sheet] appends is of the current month, so the total read
    just after an expense is logged, as the confirmation shows it, is the
    total before plus the amount.  Without transactions, and when the sheet
    cannot be reached, the total is 0. *)
Theorem monthly_total_counts_the_new_expense env rows :
  (online env = true ->
   forall row,
     get_monthly_expenses env (rows ++ [row])
     = if starts_with (current_month env) (row_date row)
       then Qplus (get_monthly_expenses env rows) (row_amount row)
       else get_monthly_expenses env rows)
  /\ (online env = true ->
      forall amount category message,
        get_monthly_expenses env
          (apply_calls (add_expense_to_sheet env amount category message).2 rows)
        = Qplus (get_monthly_expenses env rows) amount)
  /\ get_monthly_expenses env [] = 0%Q
  /\ (online env = false -> get_monthly_expenses env rows = 0%Q).
Proof.
  unfold get_monthly_expenses. split; [| split; [| split]].
  - intros -> row. cbn [negb]. by rewrite fold_left_app.
  - intros Hon amount category message. unfold add_expense_to_sheet.
    rewrite Hon. cbn [negb snd apply_calls fold_left apply_call].
    rewrite fold_left_app. cbn [fold_left row_date row_amount].
    unfold current_month. by rewrite month_starts_date.
  - by destruct (online env).
  - by intros ->.
Qed.

Lemma monthly_total_counts_the_new_expense_witness :
  get_monthly_expenses sample_env
    (apply_calls (add_expense_to_sheet sample_env (250 # 1) (u "Food") (u "Lunch 250")).2
       [taxi_row; rent_row])
  = Qplus (get_monthly_expenses sample_env [taxi_row; rent_row]) (250 # 1).
Proof.
  destruct (monthly_total_counts_the_new_expense sample_env [taxi_row; rent_row])
    as (_ & Hlogged & _).
  exact (Hlogged eq_refl (250 # 1)%Q (u "Food") (u "Lunch 250")).
Defined.

(** X16. [balance] divides the remaining budget by [MONTHLY_BUDGET] when the
    budget is neither exceeded nor low: the command ends in a division by
    zero, before any reply, exactly when the budget is zero and the total of
    the month is not above zero.  With the budget left at its default of 0
    this is the case for every sheet without an expense of the current month,
    and also while the sheet cannot be reached; a budget that is not zero
    always gets a report. *)
Theorem balance_command_divides_by_the_budget MONTHLY_BUDGET env st :
  (balance_command MONTHLY_BUDGET env st = None
   <-> Qeq MONTHLY_BUDGET 0 /\ Qle (get_monthly_expenses env (sheet st)) 0)
  /\ (Qeq MONTHLY_BUDGET 0 ->
      Forall (fun r => starts_with (current_month env) (row_date r) = false) (sheet st)
      \/ online env = false ->
      balance_command MONTHLY_BUDGET env st = None)
  /\ (~ Qeq MONTHLY_BUDGET 0 -> is_Some (balance_command MONTHLY_BUDGET env st)).
Proof.
  assert (balance_command MONTHLY_BUDGET env st = None
          <-> Qeq MONTHLY_BUDGET 0 /\ Qle (get_monthly_expenses env (sheet st)) 0)
    as Hiff.
  { unfold balance_command.
    set (total := get_monthly_expenses env (sheet st)).
    destruct (Qle_bool 0 (MONTHLY_BUDGET - total)) eqn:Hr; cbn [negb].
    2: { split; [done |]. intros [Hb Ht].
         assert (Qle 0 (MONTHLY_BUDGET - total)) as Hle.
         { rewrite Hb. unfold Qle, Qminus, Qplus, Qopp in *. simpl in *. lia. }
         apply Qle_bool_iff in Hle. congruence. }
    apply Qle_bool_iff in Hr.
    destruct (Qle_bool (MONTHLY_BUDGET * (1 # 5)) (MONTHLY_BUDGET - total)) eqn:Hl;
      cbn [negb].
    2: { split; [done |]. intros [Hb Ht].
         assert (Qle (MONTHLY_BUDGET * (1 # 5)) (MONTHLY_BUDGET - total)) as Hle.
         { rewrite Hb. unfold Qle, Qminus, Qplus, Qopp, Qmult in *. simpl in *. lia. }
         apply Qle_bool_iff in Hle. congruence. }
    destruct (Qeq_bool MONTHLY_BUDGET 0) eqn:Hb.
    - apply Qeq_bool_iff in Hb. split; [| done]. intros _. split; [done |].
      rewrite Hb in Hr. unfold Qle, Qminus, Qplus, Qopp in *. simpl in *. lia.
    - split; [done |]. intros [Hb' _]. apply Qeq_bool_iff in Hb'. congruence. }
  split; [exact Hiff |]. split.
  - intros Hb Hnone. apply Hiff. split; [done |].
    unfold get_monthly_expenses. destruct Hnone as [Hall | ->]; [| done].
    destruct (online env); [| done]. cbn [negb].
    assert (forall records total,
              Forall (fun r => starts_with (current_month env) (row_date r) = false)
                records ->
              fold_left
                (fun total record =>
                   if starts_with (current_month env) (row_date record)
                   then Qplus total (row_amount record) else total)
                records total = total) as Hfold.
    { intros records total Hrecords. revert total.
      induction Hrecords as [|r records Hr _ IH]; intros total; [done |].
      cbn [fold_left]. cbv beta. rewrite Hr. apply IH. }
    rewrite Hfold by done. apply Qle_refl.
  - intros Hb. destruct (balance_command MONTHLY_BUDGET env st) eqn:Hc; [by eexists |].
    destruct (proj1 Hiff eq_refl) as [Hz _]. by destruct Hb.
Qed.

(** The budget is not configured and the sheet is empty. *)
Lemma balance_command_divides_by_the_budget_witness :
  balance_command 0 sample_env (initial_state []) = None.
Proof.
  destruct (balance_command_divides_by_the_budget 0 sample_env (initial_state []))
    as (_ & Hnone & _).
  apply Hnone; [reflexivity |]. left. constructor.
Defined.

(** ** The tracked transactions *)

Section Tracked.
Context `{!SetOrder}.

Lemma log_expense_keeps_entries env upd st k :
  is_Some (transactions st !! k) ->
  is_Some (transactions (log_expense env upd st).1 !! k).
Proof.
  intros Hk. unfold log_expense, add_expense_to_sheet.
  repeat case_match; simplify_eq; cbn [fst set_transactions commit transactions];
    try done.
  rewrite !lookup_insert. by repeat case_decide.
Qed.

(** X18. The tracked transactions are never trimmed: an entry leaves
    [bot_data['transactions']] only through a reply to its message that
    contains "delete".  Every other input, the bulk delete and [delete] by
    number included, keeps every entry, also the entries whose record it has
    just removed from the sheet. *)
Theorem tracked_entries_are_only_removed_by_reply env input st k :
  is_Some (transactions st !! k) ->
  is_Some (transactions (dispatch env input st).1 !! k)
  \/ exists upd,
       input = Message upd
       /\ reply_to_message upd = Some k
       /\ occurs_ignoring_case (u "delete") (text upd).
Proof.
  intros Hk. destruct input as [| | | | args | | upd]; cbn [dispatch]; try by left.
  - left. unfold recent_command. by case_match.
  - left. unfold delete_command. repeat case_match; simplify_eq; done.
  - left. unfold deleteall_command. repeat case_match; simplify_eq; done.
  - unfold handle_message.
    destruct (decide (message_id upd ∈ processed_messages st)); [by left |].
    cbn [set_processed pending_deleteall sheet transactions].
    destruct (pending_deleteall st).
    { left. repeat case_match; simplify_eq; done. }
    destruct (reply_to_message upd) as [replied|] eqn:Hreply;
      [| left; by apply log_expense_keeps_entries].
    destruct (contains (u "delete") (lower (text upd))) eqn:Hdelete.
    + destruct (decide (replied = k)) as [-> | Hne].
      * right. exists upd. split; [done |]. split; [done |].
        apply contains_lower. by rewrite lower_delete.
      * left. repeat case_match; simplify_eq;
          cbn [fst set_transactions commit transactions]; try done.
        by rewrite lookup_delete_ne.
    + destruct (transactions st !! replied) as [txn_data|];
        [| left; by apply log_expense_keeps_entries].
      destruct (update_amount_flag (text upd) || update_category_flag (text upd) txn_data);
        [| left; by apply log_expense_keeps_entries].
      left. by destruct (update_transaction _ _ _ _ _ _ _).
Qed.

End Tracked.

(** The tracked record is removed from the sheet by [delete 1]; its entry
    stays. *)
Lemma tracked_entries_are_only_removed_by_reply_witness :
  sheet (dispatch sample_env (CmdDelete [u "1"]) tracked_state).1 = []
  /\ is_Some (transactions (dispatch sample_env (CmdDelete [u "1"]) tracked_state).1
                !! 10%Z).
Proof.
  split; [reflexivity |].
  destruct (tracked_entries_are_only_removed_by_reply sample_env (CmdDelete [u "1"])
              tracked_state 10%Z) as [Hkept | (upd & Hmsg & _)].
  - by eexists.
  - exact Hkept.
  - discriminate Hmsg.
Defined.

